(** * agentcfg: the Elasticsearch-backed agent configuration fetcher

    A shallow embedding of [agentcfg/elasticsearch.go].  The fetcher keeps a
    cached snapshot of agent configurations and two readiness flags; a
    background job ([Run]) rebuilds the snapshot by paging through an
    Elasticsearch scroll ([refreshCache], [singlePageRefresh]) and releases
    the scroll afterwards ([clearScroll]); [Fetch] answers queries from the
    snapshot.

    The Go code talks to three things outside itself: the Elasticsearch
    client, the logger and the context/ticker pair that drives [Run].  They
    are modelled by an explicit [World]: the answers of the upstream store
    are an oracle indexed by the number of the request, every request and
    every log line is recorded in order, and the outcome of each [select] of
    [Run] is read from a schedule.  The two unbounded loops of the source
    (the page loop and the ticker loop) take a fuel argument and return
    [None] when it runs out. *)

From stdpp Require Import strings gmap list.

Local Open Scope string_scope.
Local Open Scope list_scope.

(** ** Constants *)

Definition ElasticsearchIndexName : string := ".apm-agent-configuration".

Definition ErrInfrastructureNotReady : string :=
  "agentcfg infrastructure is not ready".

Definition ErrNoValidElasticsearchConfig : string :=
  "no valid elasticsearch config to fetch agent config".

(** [net/http] status codes used by the source. *)
Definition StatusBadRequest : Z := 400.
Definition StatusUnauthorized : Z := 401.
Definition StatusForbidden : Z := 403.

(** ** Errors

    Go [error] values.  [errors_New] is [errors.New]; [status_Errorf code] is
    [fmt.Errorf("refresh cache elasticsearch returned status %d", code)];
    [foreign] stands for the errors made outside this file (by the
    transport, the JSON decoder or the context), described by their text. *)
Inductive error : Type :=
| errors_New (msg : string)
| status_Errorf (code : Z)
| foreign (text : string).

(** ** Data model *)

Record AgentConfig : Type := {
  ServiceName : string;
  ServiceEnvironment : string;
  AgentName : string;
  Etag : string;
  Config : gmap string string
}.

(** The JSON shape of one search or scroll answer (Go [cacheResult]). *)
Record hitService : Type := {
  Name : string;
  Environment : string
}.

Record hitSource : Type := {
  Settings : gmap string string;
  Service : hitService;
  Source_AgentName : string;
  ETag : string
}.

Record hit : Type := { Source : hitSource }.

Record hitList : Type := { Hits_Hits : list hit }.

Record cacheResult : Type := {
  ScrollID : string;
  Hits : hitList
}.

(** The zero value of [cacheResult] ([var result cacheResult]). *)
Definition zero_cacheResult : cacheResult :=
  {| ScrollID := ""; Hits := {| Hits_Hits := [] |} |}.

(** ** The upstream store and the logger *)

(** The three [esapi] requests the fetcher issues.  Durations are in
    nanoseconds. *)
Inductive Request : Type :=
| SearchRequest (Index : list string) (Size : Z) (Scroll : Z)
| ScrollRequest (scrollID : string) (Scroll : Z)
| ClearScrollRequest (scrollIDs : list string).

(** A response body is seen by the source through two readers only:
    [io.ReadAll] (on the error path) and [json.Decoder.Decode] into a
    [cacheResult] (on the success path).  The body is what they return; a
    failed [Decode] leaves the page filled as far as it got, next to its
    error. *)
Record Body : Type := {
  ReadAll : string + error;
  Decode : cacheResult + cacheResult * error
}.

Record Response : Type := {
  StatusCode : Z;
  RespBody : Body
}.

(** [esapi.Response.IsError]: a status above 299. *)
Definition IsError (resp : Response) : bool := (299 <? StatusCode resp)%Z.

(** What [Do] returns: a transport error (no response), or a response. *)
Inductive DoResult : Type :=
| DoErr (err : error)
| DoOk (resp : Response).

Inductive Level : Type := DebugLevel | WarnLevel | ErrorLevel.

(** The log lines of the file, with their arguments. *)
Inductive LogMessage : Type :=
| log_refresh_error (err : error)
| log_stopping
| log_refresh_success
| log_clear_failed (err : error)
| log_clear_status (code : Z)
| log_page_status (code : Z) (body : string).

Record World : Type := {
  upstream : nat -> DoResult;
  issued : list Request;
  logged : list (Level * LogMessage)
}.

(** [req.Do(ctx, f.client)]: the request is recorded and answered by the
    oracle at the index of the request. *)
Definition Do (req : Request) (w : World) : DoResult * World :=
  (upstream w (length (issued w)),
   {| upstream := upstream w;
      issued := issued w ++ [req];
      logged := logged w |}).

Definition log (lvl : Level) (msg : LogMessage) (w : World) : World :=
  {| upstream := upstream w;
     issued := issued w;
     logged := logged w ++ [(lvl, msg)] |}.

(** [time.Now()], as a logical clock: the number of upstream calls made. *)
Definition time_Now (w : World) : nat := length (issued w).

(** ** The fetcher *)

(** [client] and [logger] live in the [World]; [mu] guards [cache] and has no
    content in a sequential model. *)
Record ElasticsearchFetcher : Type := {
  last : nat;
  cache : list AgentConfig;
  cacheDuration : Z;
  searchSize : Z;
  invalidESCfg : bool;
  cacheInitialized : bool
}.

Definition NewElasticsearchFetcher (cacheDuration : Z) : ElasticsearchFetcher :=
  {| last := 0;
     cache := [];
     cacheDuration := cacheDuration;
     searchSize := 100;
     invalidESCfg := false;
     cacheInitialized := false |}.

Definition store_invalidESCfg (b : bool) (f : ElasticsearchFetcher) :=
  {| last := last f; cache := cache f; cacheDuration := cacheDuration f;
     searchSize := searchSize f; invalidESCfg := b;
     cacheInitialized := cacheInitialized f |}.

Definition store_cacheInitialized (b : bool) (f : ElasticsearchFetcher) :=
  {| last := last f; cache := cache f; cacheDuration := cacheDuration f;
     searchSize := searchSize f; invalidESCfg := invalidESCfg f;
     cacheInitialized := b |}.

Definition set_cache (c : list AgentConfig) (f : ElasticsearchFetcher) :=
  {| last := last f; cache := c; cacheDuration := cacheDuration f;
     searchSize := searchSize f; invalidESCfg := invalidESCfg f;
     cacheInitialized := cacheInitialized f |}.

Definition set_last (t : nat) (f : ElasticsearchFetcher) :=
  {| last := t; cache := cache f; cacheDuration := cacheDuration f;
     searchSize := searchSize f; invalidESCfg := invalidESCfg f;
     cacheInitialized := cacheInitialized f |}.

(** ** [singlePageRefresh]

    The first request of a cycle (empty scroll id) is a search, the later
    ones continue the scroll.  On the success path the source returns
    [result] together with the error of decoding into [&result]; the page
    returned is the decoded one, as the callers rely on. *)

Definition pageRequest (scrollID : string) (f : ElasticsearchFetcher) : Request :=
  if String.eqb scrollID "" then
    SearchRequest [ElasticsearchIndexName] (searchSize f) (cacheDuration f)
  else
    ScrollRequest scrollID (cacheDuration f).

Definition singlePageRefresh (scrollID : string)
    (f : ElasticsearchFetcher) (w : World)
  : cacheResult * option error * ElasticsearchFetcher * World :=
  let result := zero_cacheResult in
  let '(d, w1) := Do (pageRequest scrollID f) w in
  match d with
  | DoErr err => (result, Some err, f, w1)
  | DoOk resp =>
    if (StatusBadRequest <=? StatusCode resp)%Z then
      let f1 :=
        if (StatusCode resp =? StatusUnauthorized)%Z
           || (StatusCode resp =? StatusForbidden)%Z
        then store_invalidESCfg true f else f in
      let w2 :=
        match ReadAll (RespBody resp) with
        | inl bodyBytes =>
          log DebugLevel (log_page_status (StatusCode resp) bodyBytes) w1
        | inr _ => w1
        end in
      (result, Some (status_Errorf (StatusCode resp)), f1, w2)
    else
      match Decode (RespBody resp) with
      | inl decoded => (decoded, None, f, w1)
      | inr (partial, err) => (partial, Some err, f, w1)
      end
  end.

(** ** [clearScroll] *)

Definition clearScroll (scrollID : string) (w : World) : World :=
  let '(d, w1) := Do (ClearScrollRequest [scrollID]) w in
  match d with
  | DoErr err => log WarnLevel (log_clear_failed err) w1
  | DoOk resp =>
    if IsError resp then log WarnLevel (log_clear_status (StatusCode resp)) w1
    else w1
  end.

(** ** [refreshCache] *)

Definition toAgentConfig (h : hit) : AgentConfig :=
  {| ServiceName := Name (Service (Source h));
     ServiceEnvironment := Environment (Service (Source h));
     AgentName := Source_AgentName (Source h);
     Etag := ETag (Source h);
     Config := Settings (Source h) |}.

(** How the [for] loop of [refreshCache] is left: by [return err] after a
    failed page (the scroll is cleared first), or by [break] after an empty
    page. *)
Inductive loopExit : Type :=
| loop_return (err : error)
| loop_break (scrollID : string) (buffer : list AgentConfig).

Fixpoint pageLoop (fuel : nat) (scrollID : string) (buffer : list AgentConfig)
    (f : ElasticsearchFetcher) (w : World)
  : option (loopExit * ElasticsearchFetcher * World) :=
  match fuel with
  | O => None
  | S fuel' =>
    let '(result, err, f1, w1) := singlePageRefresh scrollID f w in
    match err with
    | Some e => Some (loop_return e, f1, clearScroll scrollID w1)
    | None =>
      let buffer' := buffer ++ map toAgentConfig (Hits_Hits (Hits result)) in
      let scrollID' := ScrollID result in
      if Nat.eqb (length (Hits_Hits (Hits result))) 0 then
        Some (loop_break scrollID' buffer', f1, w1)
      else
        pageLoop fuel' scrollID' buffer' f1 w1
    end
  end.

Definition refreshCache (fuel : nat) (f : ElasticsearchFetcher) (w : World)
  : option (option error * ElasticsearchFetcher * World) :=
  match pageLoop fuel "" [] f w with
  | None => None
  | Some (loop_return e, f1, w1) => Some (Some e, f1, w1)
  | Some (loop_break scrollID buffer, f1, w1) =>
    let w2 := clearScroll scrollID w1 in
    let f2 := set_cache buffer f1 in
    let f3 := store_cacheInitialized true f2 in
    let f4 := set_last (time_Now w2) f3 in
    Some (None, f4, w2)
  end.

(** ** [Run] *)

(** Which case a [select] of [Run] takes.  The first [select] has a
    [default] case, the later ones wait for the ticker; both count as
    [case_proceed].  When the context is done and the ticker has fired, Go
    picks either case, so the choice is an input. *)
Inductive selected : Type := case_Done | case_proceed.

(** The context handed to [Run]: the case taken by the k-th [select]
    (counted from 0) and the value of [ctx.Err()] once it is done.  The
    effect of the context on the requests of a cycle (cancellation, the
    deadline of [refreshCacheTimeout]) is part of the upstream oracle: such
    a request is answered by [DoErr]. *)
Record Context : Type := {
  ctx_select : nat -> selected;
  ctx_Err : error
}.

(** The closure [refresh] of [Run]: [true] asks [Run] to return without
    error.  [pages] is the fuel of the page loop of one cycle. *)
Definition refresh (pages : nat) (f : ElasticsearchFetcher) (w : World)
  : option (bool * ElasticsearchFetcher * World) :=
  match refreshCache pages f w with
  | None => None
  | Some (Some err, f1, w1) =>
    let w2 := log ErrorLevel (log_refresh_error err) w1 in
    if invalidESCfg f1 then Some (true, f1, log WarnLevel log_stopping w2)
    else Some (false, f1, w2)
  | Some (None, f1, w1) =>
    Some (false, f1, log DebugLevel log_refresh_success w1)
  end.

(** [time.NewTicker(d)] panics unless [d] is positive; [None] is the
    panic. *)
Definition time_NewTicker (d : Z) : option unit :=
  if (0 <? d)%Z then Some tt else None.

(** The [for] loop of [Run]; [k] numbers the [select] about to be taken. *)
Fixpoint tickerLoop (ticks pages : nat) (ctx : Context) (k : nat)
    (f : ElasticsearchFetcher) (w : World)
  : option (option error * ElasticsearchFetcher * World) :=
  match ticks with
  | O => None
  | S ticks' =>
    match ctx_select ctx k with
    | case_Done => Some (Some (ctx_Err ctx), f, w)
    | case_proceed =>
      match refresh pages f w with
      | None => None
      | Some (true, f1, w1) => Some (None, f1, w1)
      | Some (false, f1, w1) => tickerLoop ticks' pages ctx (S k) f1 w1
      end
    end
  end.

(** [Run] returns [Some] of what the source returns.  It is [None] when
    [Run] does not return: the fuel ran out, or [time.NewTicker] panicked on
    a [cacheDuration] that is not positive. *)
Definition Run (ticks pages : nat) (ctx : Context)
    (f : ElasticsearchFetcher) (w : World)
  : option (option error * ElasticsearchFetcher * World) :=
  match ctx_select ctx 0 with
  | case_Done => Some (Some (ctx_Err ctx), f, w)
  | case_proceed =>
    match refresh pages f w with
    | None => None
    | Some (true, f1, w1) => Some (None, f1, w1)
    | Some (false, f1, w1) =>
      match time_NewTicker (cacheDuration f1) with
      | None => None
      | Some _ => tickerLoop ticks pages ctx 1 f1 w1
      end
    end
  end.

(** ** [Fetch] *)

Section Fetch.

(** [Query], [Result] and [matchAgentConfig] are declared in other files
    of the package; [Fetch] only passes them along. *)
Variables Query Result : Type.
Variable zero_Result : Result.
Variable matchAgentConfig : Query -> list AgentConfig -> Result.

Definition Fetch (f : ElasticsearchFetcher) (query : Query)
  : Result * option error :=
  if cacheInitialized f then
    (matchAgentConfig query (cache f), None)
  else if invalidESCfg f then
    (zero_Result, Some (errors_New ErrNoValidElasticsearchConfig))
  else
    (zero_Result, Some (errors_New ErrInfrastructureNotReady)).

End Fetch.

Arguments Fetch {Query Result} zero_Result matchAgentConfig f query.

(** ** Sample upstream stores *)

Definition ok_page (scrollID : string) (hits : list hit) : DoResult :=
  DoOk {| StatusCode := 200;
          RespBody := {| ReadAll := inl "";
                         Decode := inl {| ScrollID := scrollID;
                                          Hits := {| Hits_Hits := hits |} |} |} |}.

Definition status_page (code : Z) : DoResult :=
  DoOk {| StatusCode := code;
          RespBody := {| ReadAll := inl "denied";
                         Decode := inr (zero_cacheResult,
                                        foreign "unexpected body") |} |}.

Definition sample_hit (name : string) : hit :=
  {| Source := {| Settings := {[ "transaction_sample_rate" := "0.5" ]};
                  Service := {| Name := name; Environment := "production" |};
                  Source_AgentName := "go";
                  ETag := "abc" |} |}.

(** The answers come from a list; past its end every call is a transport
    error. *)
Definition scripted (answers : list DoResult) : World :=
  {| upstream := fun i => default (DoErr (foreign "connection refused"))
                                  (answers !! i);
     issued := [];
     logged := [] |}.

Definition never_done : Context :=
  {| ctx_select := fun _ => case_proceed; ctx_Err := foreign "context canceled" |}.

(** * Reading the upstream answers

    The vocabulary of the statements below: what one answer of the store
    means to [singlePageRefresh], and what a run of answers means to the page
    loop. *)

(** The error [singlePageRefresh] returns for an answer, if any. *)
Definition page_error (d : DoResult) : option error :=
  match d with
  | DoErr err => Some err
  | DoOk resp =>
    if (StatusBadRequest <=? StatusCode resp)%Z
    then Some (status_Errorf (StatusCode resp))
    else match Decode (RespBody resp) with
         | inl _ => None
         | inr (_, err) => Some err
         end
  end.

(** The page [singlePageRefresh] returns for an answer: the zero value
    when there is no response or its status is 400 or more, what [Decode]
    left otherwise. *)
Definition page_result (d : DoResult) : cacheResult :=
  match d with
  | DoErr _ => zero_cacheResult
  | DoOk resp =>
    if (StatusBadRequest <=? StatusCode resp)%Z then zero_cacheResult
    else match Decode (RespBody resp) with
         | inl decoded => decoded
         | inr (partial, _) => partial
         end
  end.

(** An answer is a permanent failure when it is a response with status 401
    or 403. *)
Definition permanent (d : DoResult) : bool :=
  match d with
  | DoErr _ => false
  | DoOk resp =>
    (StatusCode resp =? StatusUnauthorized)%Z
    || (StatusCode resp =? StatusForbidden)%Z
  end.

(** The records of one page. *)
Definition records (p : cacheResult) : list AgentConfig :=
  map toAgentConfig (Hits_Hits (Hits p)).

(** The page loop goes on after an answer when it is a page with at least
    one hit. *)
Definition more_pages (d : DoResult) : bool :=
  match page_error d with
  | Some _ => false
  | None => negb (Nat.eqb (length (Hits_Hits (Hits (page_result d)))) 0)
  end.

(** The records of the [n] answers from index [base] on, in order. *)
Definition gathered (up : nat -> DoResult) (base n : nat) : list AgentConfig :=
  concat (map (fun i => records (page_result (up (base + i)))) (seq 0 n)).

(** The loop started at request [base] stops at its [n]-th answer (counted
    from 0): the answers before it are pages with hits, and it is not. *)
Definition stops_at (up : nat -> DoResult) (base n : nat) : Prop :=
  (forall i, i < n -> more_pages (up (base + i)) = true)
  /\ more_pages (up (base + n)) = false.

Definition is_clearScroll (r : Request) : bool :=
  match r with
  | ClearScrollRequest _ => true
  | _ => false
  end.

(** The same world with the answer of request [k] replaced. *)
Definition override (k : nat) (d : DoResult) (w : World) : World :=
  {| upstream := fun i => if Nat.eqb i k then d else upstream w i;
     issued := issued w;
     logged := logged w |}.

(** The state of the fetcher after a cycle that stopped on answer [d], having
    gathered [buffer], in the world [w'] it leaves. *)
Definition after_cycle (d : DoResult) (buffer : list AgentConfig)
    (f : ElasticsearchFetcher) (w' : World) : ElasticsearchFetcher :=
  match page_error d with
  | Some _ => if permanent d then store_invalidESCfg true f else f
  | None =>
    set_last (time_Now w') (store_cacheInitialized true (set_cache buffer f))
  end.

(** What [clearScroll] logs, by the answer to its request. *)
Definition clear_log (d : DoResult) : list (Level * LogMessage) :=
  match d with
  | DoErr err => [(WarnLevel, log_clear_failed err)]
  | DoOk resp =>
    if IsError resp then [(WarnLevel, log_clear_status (StatusCode resp))]
    else []
  end.

(** The page answer that ended the last cycle of a world: the answer to the
    request before the closing [clearScroll]. *)
Definition last_page_answer (w : World) : DoResult :=
  upstream w (length (issued w) - 2).

(** ** Sample fetchers, matchers and stores *)

Definition sample_fetcher : ElasticsearchFetcher :=
  NewElasticsearchFetcher 30000000000.

(** A fetcher that has already published one record. *)
Definition primed_fetcher : ElasticsearchFetcher :=
  store_cacheInitialized true
    (set_cache [toAgentConfig (sample_hit "cart")] sample_fetcher).

(** A stand-in for the matcher: the first record of the service. *)
Definition sample_matcher (query : string) (configs : list AgentConfig)
  : option AgentConfig :=
  List.find (fun c => String.eqb (ServiceName c) query) configs.

(** Two pages of two records each, then the empty page. *)
Definition two_pages : World :=
  scripted [ok_page "c1" [sample_hit "cart"; sample_hit "checkout"];
            ok_page "c2" [sample_hit "search"; sample_hit "billing"];
            ok_page "c3" [];
            ok_page "" []].

(** An empty index. *)
Definition empty_corpus : World :=
  scripted [ok_page "c1" []; ok_page "" []].

(** One record, then a store that cannot be reached. *)
Definition connection_lost : World :=
  scripted [ok_page "c1" [sample_hit "cart"]].

(** A cycle over an empty index, then a cycle answered 401. *)
Definition success_then_denied : World :=
  scripted [ok_page "c1" []; ok_page "" [];
            status_page 401; ok_page "" []].

(** A cycle answered 401, then a cycle answered 503. *)
Definition denied_then_unavailable : World :=
  scripted [status_page 401; ok_page "" [];
            status_page 503; ok_page "" []].

(** The first [select] proceeds, the second finds the context done. *)
Definition done_at_first_tick : Context :=
  {| ctx_select := fun k => if Nat.eqb k 0 then case_proceed else case_Done;
     ctx_Err := foreign "context canceled" |}.

(** ** The requests of a cycle *)

(** The scroll id sent with the [i]-th page request of a loop started with
    [scrollID] at request [base]: the one the loop started with, then the
    one returned by the page before. *)
Definition cursor (scrollID : string) (up : nat -> DoResult) (base i : nat)
  : string :=
  match i with
  | O => scrollID
  | S j => ScrollID (page_result (up (base + j)))
  end.

(** The first [n] page requests of such a loop. *)
Definition page_requests (f : ElasticsearchFetcher) (scrollID : string)
    (up : nat -> DoResult) (base n : nat) : list Request :=
  map (fun i => pageRequest (cursor scrollID up base i) f) (seq 0 n).

(** The requests a fetcher may issue: a search of the agent configuration
    index with its page size and scroll duration, the continuation of a
    scroll with a scroll id and that duration, the release of one scroll. *)
Definition fetcher_request (f : ElasticsearchFetcher) (r : Request) : Prop :=
  match r with
  | SearchRequest index size scroll =>
    index = [ElasticsearchIndexName]
    /\ size = searchSize f /\ scroll = cacheDuration f
  | ScrollRequest scrollID scroll =>
    scrollID <> "" /\ scroll = cacheDuration f
  | ClearScrollRequest scrollIDs => length scrollIDs = 1
  end.

Definition count_clears (l : list Request) : nat :=
  length (List.filter is_clearScroll l).

(** A 302 response whose body decodes to an empty page. *)
Definition found_response : Response :=
  {| StatusCode := 302;
     RespBody := {| ReadAll := inl "";
                    Decode := inl {| ScrollID := "c1";
                                     Hits := {| Hits_Hits := [] |} |} |} |}.

Definition found_page : DoResult := DoOk found_response.

Definition redirected : World :=
  scripted [found_page; ok_page "" []].

(** A page with one record and no scroll id. *)
Definition no_cursor : World :=
  scripted [ok_page "" [sample_hit "cart"]; ok_page "" []; ok_page "" []].

(** * Lemmas on one request *)

Lemma permanent_page_error d :
  permanent d = true ->
  exists resp, d = DoOk resp /\ page_error d = Some (status_Errorf (StatusCode resp)).
Proof.
  destruct d as [e|resp]; simpl; [discriminate|].
  intros H. exists resp. split; [reflexivity|].
  unfold StatusBadRequest, StatusUnauthorized, StatusForbidden in *.
  destruct (Z.leb_spec 400 (StatusCode resp)) as [_|Hlt]; [reflexivity|].
  apply orb_true_iff in H as [H|H]; apply Z.eqb_eq in H; lia.
Qed.

Lemma singlePageRefresh_unfold scrollID f w :
  let d := upstream w (length (issued w)) in
  exists w',
    singlePageRefresh scrollID f w
    = (page_result d, page_error d,
       if permanent d then store_invalidESCfg true f else f, w')
    /\ upstream w' = upstream w
    /\ issued w' = issued w ++ [pageRequest scrollID f]
    /\ (page_error d = None -> logged w' = logged w).
Proof.
  intros d. unfold singlePageRefresh, Do. fold d.
  destruct d as [e|resp] eqn:Hd; simpl.
  - eexists. repeat split; discriminate.
  - destruct (Z.leb_spec StatusBadRequest (StatusCode resp)) as [Hge|Hlt].
    + eexists. split; [reflexivity|].
      destruct (ReadAll (RespBody resp)); repeat split; discriminate.
    + assert (Hp : (StatusCode resp =? StatusUnauthorized)%Z
                   || (StatusCode resp =? StatusForbidden)%Z = false).
      { unfold StatusBadRequest, StatusUnauthorized, StatusForbidden in *.
        apply orb_false_iff. split; apply Z.eqb_neq; lia. }
      rewrite Hp.
      destruct (Decode (RespBody resp)) as [decoded|[partial err]];
        eexists; repeat split; discriminate.
Qed.

Lemma clearScroll_issued scrollID w :
  issued (clearScroll scrollID w) = issued w ++ [ClearScrollRequest [scrollID]].
Proof.
  unfold clearScroll, Do.
  destruct (upstream w (length (issued w))) as [e|resp]; simpl; [reflexivity|].
  destruct (IsError resp); reflexivity.
Qed.

Lemma clearScroll_upstream scrollID w :
  upstream (clearScroll scrollID w) = upstream w.
Proof.
  unfold clearScroll, Do.
  destruct (upstream w (length (issued w))) as [e|resp]; simpl; [reflexivity|].
  destruct (IsError resp); reflexivity.
Qed.

Lemma clearScroll_logged scrollID w :
  logged (clearScroll scrollID w)
  = logged w ++ clear_log (upstream w (length (issued w))).
Proof.
  unfold clearScroll, Do, clear_log.
  destruct (upstream w (length (issued w))) as [e|resp]; simpl; [reflexivity|].
  destruct (IsError resp); simpl; [reflexivity|].
  symmetry. apply app_nil_r.
Qed.

(** * Lemmas on the page loop *)

Lemma gathered_S up base n :
  gathered up base (S n)
  = records (page_result (up base)) ++ gathered up (S base) n.
Proof.
  unfold gathered. simpl seq. rewrite <- seq_shift, map_cons, map_map.
  simpl concat. rewrite Nat.add_0_r. f_equal. f_equal.
  apply map_ext. intros i. do 3 f_equal. lia.
Qed.

Lemma gathered_ext up up' base n :
  (forall i, i < n -> up (base + i) = up' (base + i)) ->
  gathered up base n = gathered up' base n.
Proof.
  revert base. induction n as [|n IH]; intros base H; [reflexivity|].
  rewrite !gathered_S. f_equal.
  - specialize (H 0 ltac:(lia)). rewrite Nat.add_0_r in H. now rewrite H.
  - apply IH. intros i Hi. specialize (H (S i) ltac:(lia)).
    now replace (S base + i) with (base + S i) by lia.
Qed.

Lemma stops_at_unique up base n m :
  stops_at up base n -> stops_at up base m -> n = m.
Proof.
  intros [Hn Hn'] [Hm Hm'].
  destruct (Nat.lt_trichotomy n m) as [Hlt|[Heq|Hgt]]; [|assumption|].
  - specialize (Hm n Hlt). congruence.
  - specialize (Hn m Hgt). congruence.
Qed.

Lemma stops_at_ext up up' base n :
  (forall i, i <= n -> up (base + i) = up' (base + i)) ->
  stops_at up base n -> stops_at up' base n.
Proof.
  intros H [H1 H2]. split.
  - intros i Hi. rewrite <- H by lia. now apply H1.
  - rewrite <- H by lia. assumption.
Qed.

Lemma stops_at_S up base n :
  more_pages (up base) = true ->
  stops_at up (S base) n -> stops_at up base (S n).
Proof.
  intros H0 [H1 H2]. split.
  - intros [|i] Hi.
    + now rewrite Nat.add_0_r.
    + replace (base + S i) with (S base + i) by lia. apply H1. lia.
  - now replace (base + S n) with (S base + n) by lia.
Qed.

Lemma stops_at_S_inv up base n :
  stops_at up base (S n) ->
  more_pages (up base) = true /\ stops_at up (S base) n.
Proof.
  intros [H1 H2]. split; [|split].
  - specialize (H1 0 ltac:(lia)). now rewrite Nat.add_0_r in H1.
  - intros i Hi. replace (S base + i) with (base + S i) by lia. apply H1. lia.
  - now replace (S base + n) with (base + S n) by lia.
Qed.

(** The shape of every finished page loop: it stopped at some answer [n],
    after [n + 1] page requests, none of which clears a scroll; on an error
    the scroll is cleared and the fetcher at most gains the invalid flag, on
    an empty page the buffer holds the records of the [n] pages before it
    and nothing else changed. *)
Lemma pageLoop_Some fuel :
  forall scrollID buffer f w exit f' w',
    pageLoop fuel scrollID buffer f w = Some (exit, f', w') ->
    exists n wp reqs sid,
      n < fuel
      /\ stops_at (upstream w) (length (issued w)) n
      /\ upstream wp = upstream w
      /\ issued wp = issued w ++ reqs
      /\ length reqs = S n
      /\ Forall (fun r => is_clearScroll r = false) reqs
      /\ match page_error (upstream w (length (issued w) + n)) with
         | Some e =>
           exit = loop_return e
           /\ f' = (if permanent (upstream w (length (issued w) + n))
                    then store_invalidESCfg true f else f)
           /\ w' = clearScroll sid wp
         | None =>
           exit = loop_break
                    (ScrollID (page_result (upstream w (length (issued w) + n))))
                    (buffer ++ gathered (upstream w) (length (issued w)) n)
           /\ f' = f /\ w' = wp /\ logged wp = logged w
         end.
Proof.
  induction fuel as [|fuel IH]; intros scrollID buffer f w exit f' w' H;
    [discriminate|].
  simpl in H.
  destruct (singlePageRefresh_unfold scrollID f w) as (w1 & Hs & Hup & Hiss & Hlog).
  rewrite Hs in H. clear Hs.
  set (d := upstream w (length (issued w))) in *.
  assert (Hreq : is_clearScroll (pageRequest scrollID f) = false).
  { unfold pageRequest. destruct (String.eqb scrollID ""); reflexivity. }
  destruct (page_error d) as [e|] eqn:He.
  - (* the first page fails *)
    injection H as <- <- <-.
    exists 0, w1, [pageRequest scrollID f], scrollID.
    rewrite Nat.add_0_r. fold d. rewrite He.
    repeat split; auto; try lia.
    unfold more_pages. rewrite Nat.add_0_r. fold d. now rewrite He.
  - assert (Hp : permanent d = false).
    { destruct (permanent d) eqn:Hp; [|reflexivity].
      apply permanent_page_error in Hp as (resp & _ & Hp). congruence. }
    rewrite Hp in H.
    destruct (Nat.eqb (length (Hits_Hits (Hits (page_result d)))) 0) eqn:Hz.
    + (* the first page is empty *)
      injection H as <- <- <-.
      exists 0, w1, [pageRequest scrollID f], scrollID.
      rewrite Nat.add_0_r. fold d. rewrite He.
      apply Nat.eqb_eq in Hz.
      destruct (Hits_Hits (Hits (page_result d))) eqn:Hh; [|discriminate].
      repeat split; auto; try lia.
      unfold more_pages. rewrite Nat.add_0_r. fold d. rewrite He, Hh. reflexivity.
    + (* the first page has hits: the loop goes on *)
      apply IH in H as (n & wp & reqs & sid & Hn & Hstop & Hup' & Hiss' & Hlen & Hall & Hm).
      assert (Hbase : length (issued w1) = S (length (issued w))).
      { rewrite Hiss, length_app. simpl. lia. }
      rewrite Hbase, Hup in *.
      assert (Hmore : more_pages d = true).
      { unfold more_pages. rewrite He, Hz. reflexivity. }
      exists (S n), wp, (pageRequest scrollID f :: reqs), sid.
      replace (length (issued w) + S n) with (S (length (issued w)) + n) by lia.
      repeat split.
      * lia.
      * intros i Hi. apply (stops_at_S _ _ _ Hmore Hstop). assumption.
      * replace (length (issued w) + S n) with (S (length (issued w)) + n) by lia.
        apply Hstop.
      * assumption.
      * rewrite Hiss', Hiss, <- app_assoc. reflexivity.
      * simpl. now rewrite Hlen.
      * constructor; assumption.
      * destruct (page_error (upstream w (S (length (issued w)) + n))) as [e|].
        -- assumption.
        -- destruct Hm as (-> & -> & -> & Hlg).
           repeat split; auto.
           ++ rewrite gathered_S, app_assoc. reflexivity.
           ++ rewrite Hlg. now apply Hlog.
Qed.

(** The page loop returns as soon as it has fuel for the answer it stops
    at. *)
Lemma pageLoop_total n :
  forall fuel scrollID buffer f w,
    n < fuel ->
    stops_at (upstream w) (length (issued w)) n ->
    exists out, pageLoop fuel scrollID buffer f w = Some out.
Proof.
  induction n as [|n IH]; intros fuel scrollID buffer f w Hfuel Hstop;
    (destruct fuel as [|fuel]; [lia|]); simpl;
    destruct (singlePageRefresh_unfold scrollID f w) as (w1 & -> & Hup & Hiss & _).
  - destruct Hstop as [_ Hstop]. rewrite Nat.add_0_r in Hstop.
    unfold more_pages in Hstop.
    destruct (page_error (upstream w (length (issued w)))); [eauto|].
    apply negb_false_iff in Hstop. rewrite Hstop. eauto.
  - apply stops_at_S_inv in Hstop as [Hmore Hstop].
    unfold more_pages in Hmore.
    destruct (page_error (upstream w (length (issued w)))); [discriminate|].
    apply negb_true_iff in Hmore. rewrite Hmore.
    apply IH; [lia|].
    rewrite Hup, Hiss, length_app. simpl.
    now replace (length (issued w) + 1) with (S (length (issued w))) by lia.
Qed.

(** * Lemmas on a refresh cycle *)

(** The shape of every finished cycle. *)
Lemma refreshCache_Some fuel f w err f' w' :
  refreshCache fuel f w = Some (err, f', w') ->
  exists n wp reqs sid,
    n < fuel
    /\ stops_at (upstream w) (length (issued w)) n
    /\ upstream wp = upstream w
    /\ issued wp = issued w ++ reqs
    /\ length reqs = S n
    /\ Forall (fun r => is_clearScroll r = false) reqs
    /\ w' = clearScroll sid wp
    /\ err = page_error (upstream w (length (issued w) + n))
    /\ f' = after_cycle (upstream w (length (issued w) + n))
                        (gathered (upstream w) (length (issued w)) n) f w'.
Proof.
  unfold refreshCache. intros H.
  destruct (pageLoop fuel "" [] f w) as [[[exit f1] w1]|] eqn:Hloop;
    [|discriminate].
  apply pageLoop_Some in Hloop
    as (n & wp & reqs & sid & Hn & Hstop & Hup & Hiss & Hlen & Hall & Hm).
  unfold after_cycle.
  destruct (page_error (upstream w (length (issued w) + n))) as [e|] eqn:He.
  - destruct Hm as (-> & -> & ->). injection H as <- <- <-.
    exists n, wp, reqs, sid. rewrite He. split_and!; auto.
  - destruct Hm as (-> & -> & -> & _). injection H as <- <- <-.
    exists n, wp, reqs,
      (ScrollID (page_result (upstream w (length (issued w) + n)))).
    rewrite He. split_and!; auto.
Qed.

Lemma refreshCache_total n fuel f w :
  n < fuel ->
  stops_at (upstream w) (length (issued w)) n ->
  exists out, refreshCache fuel f w = Some out.
Proof.
  intros Hfuel Hstop. unfold refreshCache.
  destruct (pageLoop_total n fuel "" [] f w Hfuel Hstop) as ([[exit f1] w1] & ->).
  destruct exit; eauto.
Qed.

(** A cycle whose answers stop the loop at [n] returns, with exactly this
    outcome. *)
Lemma refreshCache_stops n fuel f w :
  n < fuel ->
  stops_at (upstream w) (length (issued w)) n ->
  exists wp reqs sid,
    refreshCache fuel f w
    = Some (page_error (upstream w (length (issued w) + n)),
            after_cycle (upstream w (length (issued w) + n))
                        (gathered (upstream w) (length (issued w)) n) f
                        (clearScroll sid wp),
            clearScroll sid wp)
    /\ upstream wp = upstream w
    /\ issued wp = issued w ++ reqs
    /\ length reqs = S n
    /\ Forall (fun r => is_clearScroll r = false) reqs.
Proof.
  intros Hfuel Hstop.
  destruct (refreshCache_total n fuel f w Hfuel Hstop) as ([[err f'] w'] & H).
  destruct (refreshCache_Some _ _ _ _ _ _ H)
    as (m & wp & reqs & sid & _ & Hstop' & Hup & Hiss & Hlen & Hall & -> & -> & ->).
  assert (m = n) as -> by (eapply stops_at_unique; eassumption).
  exists wp, reqs, sid. split_and!; auto.
Qed.

(** The number of requests and the index of the last page answer. *)
Lemma refreshCache_requests fuel f w err f' w' :
  refreshCache fuel f w = Some (err, f', w') ->
  exists n,
    n < fuel
    /\ stops_at (upstream w) (length (issued w)) n
    /\ length (issued w') = length (issued w) + n + 2
    /\ upstream w' = upstream w
    /\ err = page_error (upstream w (length (issued w) + n))
    /\ f' = after_cycle (upstream w (length (issued w) + n))
                        (gathered (upstream w) (length (issued w)) n) f w'.
Proof.
  intros H.
  apply refreshCache_Some in H
    as (n & wp & reqs & sid & Hn & Hstop & Hup & Hiss & Hlen & _ & -> & -> & ->).
  exists n. split_and!; auto.
  - rewrite clearScroll_issued, Hiss, !length_app, Hlen. simpl. lia.
  - now rewrite clearScroll_upstream.
Qed.

Lemma after_cycle_clock d buffer f w1 w2 :
  length (issued w1) = length (issued w2) ->
  after_cycle d buffer f w1 = after_cycle d buffer f w2.
Proof.
  intros H. unfold after_cycle, time_Now. now rewrite H.
Qed.

(** The answer to the [clearScroll] request of a cycle has no part in the
    error the cycle returns nor in the fetcher it leaves. *)
Lemma refreshCache_override fuel f w err f' w' d :
  refreshCache fuel f w = Some (err, f', w') ->
  exists w2,
    refreshCache fuel f (override (length (issued w') - 1) d w)
    = Some (err, f', w2).
Proof.
  intros H.
  destruct (refreshCache_requests _ _ _ _ _ _ H)
    as (n & Hn & Hstop & Hlen & _ & -> & ->).
  set (k := length (issued w') - 1).
  set (wo := override k d w).
  assert (Hsame : forall i, i <= n ->
            upstream w (length (issued w) + i)
            = upstream wo (length (issued w) + i)).
  { intros i Hi. simpl.
    destruct (Nat.eqb_spec (length (issued w) + i) k) as [Hk|_];
      [|reflexivity].
    unfold k in Hk. lia. }
  assert (Hstop' : stops_at (upstream wo) (length (issued wo)) n).
  { apply (stops_at_ext (upstream w)); assumption. }
  destruct (refreshCache_stops n fuel f wo Hn Hstop')
    as (wp & reqs & sid & Hr & _ & Hiss & Hlen' & _).
  exists (clearScroll sid wp). rewrite Hr. simpl issued.
  rewrite <- Hsame by lia.
  rewrite <- (gathered_ext (upstream w) (upstream wo))
    by (intros i Hi; apply Hsame; lia).
  do 2 f_equal. f_equal. apply after_cycle_clock.
  rewrite clearScroll_issued, Hiss, !length_app, Hlen'. simpl. lia.
Qed.

Lemma after_cycle_flags d buffer f w' :
  cacheInitialized (after_cycle d buffer f w')
  = match page_error d with
    | Some _ => cacheInitialized f
    | None => true
    end
  /\ invalidESCfg (after_cycle d buffer f w')
     = invalidESCfg f || permanent d
  /\ cache (after_cycle d buffer f w')
     = match page_error d with
       | Some _ => cache f
       | None => buffer
       end.
Proof.
  unfold after_cycle.
  destruct (page_error d) eqn:He.
  - destruct (permanent d); simpl; split_and!; auto.
    + now rewrite orb_true_r.
    + now rewrite orb_false_r.
  - assert (Hp : permanent d = false).
    { destruct (permanent d) eqn:Hp; [|reflexivity].
      apply permanent_page_error in Hp as (resp & _ & Hp). congruence. }
    rewrite Hp. simpl. split_and!; auto. now rewrite orb_false_r.
Qed.

(** * Lemmas on [Run] *)

Lemma refresh_Some pages f w stop f1 w1 :
  refresh pages f w = Some (stop, f1, w1) ->
  exists err wc,
    refreshCache pages f w = Some (err, f1, wc)
    /\ issued w1 = issued wc
    /\ upstream w1 = upstream wc
    /\ stop = match err with
              | Some _ => invalidESCfg f1
              | None => false
              end.
Proof.
  unfold refresh. intros H.
  destruct (refreshCache pages f w) as [[[[e|] f2] w2]|]; [| |discriminate].
  - destruct (invalidESCfg f2) eqn:Hi; injection H as <- <- <-;
      exists (Some e), w2; rewrite ?Hi; auto.
  - injection H as <- <- <-. exists None, w2. auto.
Qed.

Lemma refresh_flags pages f w stop f1 w1 :
  refresh pages f w = Some (stop, f1, w1) ->
  upstream w1 = upstream w
  /\ (invalidESCfg f = true -> invalidESCfg f1 = true)
  /\ (cacheInitialized f = true -> cacheInitialized f1 = true)
  /\ (invalidESCfg f = false ->
      if stop
      then invalidESCfg f1 = true /\ permanent (last_page_answer w1) = true
      else invalidESCfg f1 = false).
Proof.
  intros H.
  apply refresh_Some in H as (err & wc & H & Hiss & Hup & ->).
  apply refreshCache_requests in H as (n & _ & _ & Hlen & Hup' & -> & ->).
  destruct (after_cycle_flags
              (upstream w (length (issued w) + n))
              (gathered (upstream w) (length (issued w)) n) f wc)
    as (Hinit & Hinv & _).
  rewrite Hinit, Hinv.
  unfold last_page_answer. rewrite Hiss, Hup, Hup', Hlen.
  replace (length (issued w) + n + 2 - 2) with (length (issued w) + n) by lia.
  split_and!.
  - reflexivity.
  - intros ->. reflexivity.
  - intros ->. now destruct (page_error _).
  - intros ->. simpl.
    destruct (page_error (upstream w (length (issued w) + n))) eqn:He.
    + destruct (permanent (upstream w (length (issued w) + n))); auto.
    + destruct (permanent (upstream w (length (issued w) + n))) eqn:Hp;
        [|reflexivity].
      apply permanent_page_error in Hp as (resp & _ & Hp). congruence.
Qed.

Lemma tickerLoop_Some ticks pages ctx :
  forall k f w r f' w',
    tickerLoop ticks pages ctx k f w = Some (r, f', w') ->
    upstream w' = upstream w
    /\ (invalidESCfg f = true -> invalidESCfg f' = true)
    /\ (cacheInitialized f = true -> cacheInitialized f' = true)
    /\ match r with
       | Some e =>
         e = ctx_Err ctx
         /\ exists j, k <= j /\ ctx_select ctx j = case_Done
                      /\ forall i, k <= i < j -> ctx_select ctx i = case_proceed
       | None =>
         invalidESCfg f' = true
         /\ (invalidESCfg f = false -> permanent (last_page_answer w') = true)
       end.
Proof.
  induction ticks as [|ticks IH]; intros k f w r f' w' H; [discriminate|].
  simpl in H.
  destruct (ctx_select ctx k) eqn:Hsel.
  - injection H as <- <- <-. split_and!; auto. exists k.
    split_and!; auto. intros i Hi. lia.
  - destruct (refresh pages f w) as [[[stop f1] w1]|] eqn:Hr; [|discriminate].
    apply refresh_flags in Hr as (Hup & Hinv & Hinit & Hstop).
    destruct stop.
    + injection H as <- <- <-. split_and!; auto.
      * destruct (invalidESCfg f) eqn:Hf; [auto|]. now apply Hstop.
      * intros Hf. now apply Hstop.
    + apply IH in H as (Hup' & Hinv' & Hinit' & Hr).
      split_and!; auto.
      * congruence.
      * destruct r as [e|].
        -- destruct Hr as (-> & j & Hj & Hd & Hbefore). split; [reflexivity|].
           exists j. split_and!; [lia|assumption|].
           intros i Hi. destruct (Nat.eq_dec i k) as [->|Hne]; [assumption|].
           apply Hbefore. lia.
        -- destruct Hr as (Hi & Hp). split; [assumption|].
           intros Hf. apply Hp. now apply Hstop.
Qed.

Lemma Run_Some ticks pages ctx f w r f' w' :
  Run ticks pages ctx f w = Some (r, f', w') ->
  upstream w' = upstream w
  /\ (invalidESCfg f = true -> invalidESCfg f' = true)
  /\ (cacheInitialized f = true -> cacheInitialized f' = true)
  /\ match r with
     | Some e =>
       e = ctx_Err ctx
       /\ exists j, ctx_select ctx j = case_Done
                    /\ forall i, i < j -> ctx_select ctx i = case_proceed
     | None =>
       invalidESCfg f' = true
       /\ (invalidESCfg f = false -> permanent (last_page_answer w') = true)
     end.
Proof.
  unfold Run. intros H.
  destruct (ctx_select ctx 0) eqn:Hsel.
  - injection H as <- <- <-. split_and!; auto. exists 0.
    split; [assumption|]. intros i Hi. lia.
  - destruct (refresh pages f w) as [[[stop f1] w1]|] eqn:Hr; [|discriminate].
    apply refresh_flags in Hr as (Hup & Hinv & Hinit & Hstop).
    destruct stop.
    + injection H as <- <- <-. split_and!; auto.
      * destruct (invalidESCfg f) eqn:Hf; [auto|]. now apply Hstop.
      * intros Hf. now apply Hstop.
    + destruct (time_NewTicker (cacheDuration f1)); [|discriminate].
      apply tickerLoop_Some in H as (Hup' & Hinv' & Hinit' & Hr).
      split_and!; auto.
      * congruence.
      * destruct r as [e|].
        -- destruct Hr as (-> & j & Hj & Hd & Hbefore). split; [reflexivity|].
           exists j. split; [assumption|].
           intros i Hi. destruct (Nat.eq_dec i 0) as [->|Hne]; [assumption|].
           apply Hbefore. lia.
        -- destruct Hr as (Hi & Hp). split; [assumption|].
           intros Hf. apply Hp. now apply Hstop.
Qed.

(** * The readiness table of [Fetch] *)

(** C1: the outcome of [Fetch] is the readiness table.  With the
    initialized flag set, [Fetch] returns what the matcher returns for the
    query and the cached snapshot, with no error, whatever the invalid flag;
    with the initialized flag clear it fails, with the invalid-configuration
    error when the invalid flag is set and with the not-ready error when it
    is clear. *)
Theorem Fetch_decision_table {Query Result : Type} (zero_Result : Result)
    (matchAgentConfig : Query -> list AgentConfig -> Result)
    (f : ElasticsearchFetcher) (query : Query) :
  (cacheInitialized f = true ->
   Fetch zero_Result matchAgentConfig f query
   = (matchAgentConfig query (cache f), None))
  /\ (cacheInitialized f = false -> invalidESCfg f = true ->
      Fetch zero_Result matchAgentConfig f query
      = (zero_Result, Some (errors_New ErrNoValidElasticsearchConfig)))
  /\ (cacheInitialized f = false -> invalidESCfg f = false ->
      Fetch zero_Result matchAgentConfig f query
      = (zero_Result, Some (errors_New ErrInfrastructureNotReady))).
Proof.
  unfold Fetch. split_and!.
  - intros ->. reflexivity.
  - intros -> ->. reflexivity.
  - intros -> ->. reflexivity.
Qed.

Lemma Fetch_decision_table_witness :
  Fetch None sample_matcher
        (store_cacheInitialized true (store_invalidESCfg true sample_fetcher))
        "checkout"
  = (sample_matcher "checkout" [], None)
  /\ Fetch None sample_matcher (store_invalidESCfg true sample_fetcher)
           "checkout"
     = (None, Some (errors_New ErrNoValidElasticsearchConfig))
  /\ Fetch None sample_matcher sample_fetcher "checkout"
     = (None, Some (errors_New ErrInfrastructureNotReady)).
Proof.
  split_and!.
  - exact (proj1 (Fetch_decision_table None sample_matcher
                    (store_cacheInitialized true
                       (store_invalidESCfg true sample_fetcher))
                    "checkout") eq_refl).
  - exact (proj1 (proj2 (Fetch_decision_table None sample_matcher
                           (store_invalidESCfg true sample_fetcher)
                           "checkout")) eq_refl eq_refl).
  - exact (proj2 (proj2 (Fetch_decision_table None sample_matcher
                           sample_fetcher "checkout")) eq_refl eq_refl).
Defined.

(** * The classification of page answers *)

(** C2, as stated, fails for the statuses below 400 that are no success:
    a 302 response whose body decodes is not a failure to
    [singlePageRefresh], which returns its page with no error, and a cycle
    that gets it replaces the cache. *)
Lemma non_success_status_below_400_is_a_page :
  StatusCode found_response = 302%Z
  /\ IsError found_response = true
  /\ upstream redirected (length (issued redirected)) = found_page
  /\ (singlePageRefresh "" primed_fetcher redirected).1.1.2 = None
  /\ exists f' w',
       refreshCache 1 primed_fetcher redirected = Some (None, f', w')
       /\ cache primed_fetcher = [toAgentConfig (sample_hit "cart")]
       /\ cache f' = [].
Proof.
  split_and!; try reflexivity.
  eexists _, _. split_and!; reflexivity.
Qed.

(** C2, amended: what [singlePageRefresh] does with the answer to its
    request.  A response with status 401 or 403 is returned as an error and
    sets the invalid flag.  Every other answer leaves the fetcher, flag
    included, as it was.  A transport error (which is also how an expired
    deadline shows), any other status of 400 or more, and a body that does
    not decode are returned as errors.  A response with a status below 400,
    be it a success status or not, is no failure on account of its status:
    when its body decodes, it is returned as a page with no error. *)
Theorem singlePageRefresh_classification scrollID f w :
  let d := upstream w (length (issued w)) in
  let '(result, err, f', _) := singlePageRefresh scrollID f w in
  (forall resp, d = DoOk resp ->
     StatusCode resp = 401%Z \/ StatusCode resp = 403%Z ->
     err = Some (status_Errorf (StatusCode resp))
     /\ invalidESCfg f' = true
     /\ f' = store_invalidESCfg true f)
  /\ (permanent d = false -> f' = f)
  /\ (forall e, d = DoErr e -> err = Some e /\ f' = f)
  /\ (forall resp, d = DoOk resp ->
        (400 <= StatusCode resp)%Z ->
        StatusCode resp <> 401%Z -> StatusCode resp <> 403%Z ->
        err = Some (status_Errorf (StatusCode resp)) /\ f' = f)
  /\ (forall resp partial e, d = DoOk resp ->
        (StatusCode resp < 400)%Z ->
        Decode (RespBody resp) = inr (partial, e) ->
        err = Some e /\ f' = f)
  /\ (forall resp page, d = DoOk resp ->
        (StatusCode resp < 400)%Z ->
        Decode (RespBody resp) = inl page ->
        result = page /\ err = None /\ f' = f).
Proof.
  intros d.
  destruct (singlePageRefresh_unfold scrollID f w) as (w1 & -> & _).
  fold d. clearbody d.
  split_and!.
  - intros resp -> Hcode.
    unfold page_error, permanent,
      StatusBadRequest, StatusUnauthorized, StatusForbidden.
    assert (Hp : (StatusCode resp =? 401)%Z || (StatusCode resp =? 403)%Z = true).
    { apply orb_true_iff. destruct Hcode as [H|H]; [left|right];
        now apply Z.eqb_eq. }
    rewrite Hp.
    destruct (Z.leb_spec 400 (StatusCode resp)); [auto|lia].
  - intros ->. reflexivity.
  - intros e ->. auto.
  - intros resp -> Hge H1 H3.
    unfold page_error, permanent,
      StatusBadRequest, StatusUnauthorized, StatusForbidden.
    assert (Hp : (StatusCode resp =? 401)%Z || (StatusCode resp =? 403)%Z = false).
    { apply orb_false_iff. split; now apply Z.eqb_neq. }
    rewrite Hp.
    destruct (Z.leb_spec 400 (StatusCode resp)); [auto|lia].
  - intros resp partial e -> Hlt Hdec.
    unfold page_error, permanent,
      StatusBadRequest, StatusUnauthorized, StatusForbidden.
    assert (Hp : (StatusCode resp =? 401)%Z || (StatusCode resp =? 403)%Z = false).
    { apply orb_false_iff. split; apply Z.eqb_neq; lia. }
    rewrite Hp, Hdec.
    destruct (Z.leb_spec 400 (StatusCode resp)); [lia|auto].
  - intros resp page -> Hlt Hdec.
    unfold page_result, page_error, permanent,
      StatusBadRequest, StatusUnauthorized, StatusForbidden.
    assert (Hp : (StatusCode resp =? 401)%Z || (StatusCode resp =? 403)%Z = false).
    { apply orb_false_iff. split; apply Z.eqb_neq; lia. }
    rewrite Hp, Hdec.
    destruct (Z.leb_spec 400 (StatusCode resp)); [lia|auto].
Qed.

Lemma singlePageRefresh_classification_witness :
  invalidESCfg (singlePageRefresh "" sample_fetcher denied_then_unavailable).1.2
  = true.
Proof.
  pose proof (singlePageRefresh_classification
                "" sample_fetcher denied_then_unavailable) as H.
  cbv zeta in H.
  destruct (singlePageRefresh "" sample_fetcher denied_then_unavailable)
    as [[[result err] f'] w'].
  destruct H as (H & _).
  exact (proj1 (proj2 (H _ eq_refl (or_introl eq_refl)))).
Defined.

(** * What a cycle publishes *)

(** C3: after a cycle that returns no error, the cache is exactly the
    records of the pages of that cycle, page by page in the order of the
    requests: the cycle made [n + 1] page requests and one [clearScroll]
    request, the answers to the first [n] were pages with hits, and the
    cache is their records.  Nothing of the cache the fetcher had before is
    left: the same cycle started from any other cache publishes the same
    records. *)
Theorem refreshCache_publishes_gathered fuel f w f' w' :
  refreshCache fuel f w = Some (None, f', w') ->
  exists n,
    stops_at (upstream w) (length (issued w)) n
    /\ length (issued w') = length (issued w) + n + 2
    /\ cache f' = gathered (upstream w) (length (issued w)) n
    /\ forall c, exists f2 w2,
         refreshCache fuel (set_cache c f) w = Some (None, f2, w2)
         /\ cache f2 = cache f'.
Proof.
  intros H.
  apply refreshCache_requests in H as (n & Hn & Hstop & Hlen & _ & He & ->).
  symmetry in He.
  destruct (after_cycle_flags
              (upstream w (length (issued w) + n))
              (gathered (upstream w) (length (issued w)) n) f w')
    as (_ & _ & Hc).
  rewrite He in Hc.
  exists n. split_and!; auto.
  intros c.
  destruct (refreshCache_stops n fuel (set_cache c f) w Hn Hstop)
    as (wp & reqs & sid & Hr & _).
  rewrite He in Hr. eexists _, _. split; [exact Hr|].
  rewrite Hc.
  destruct (after_cycle_flags
              (upstream w (length (issued w) + n))
              (gathered (upstream w) (length (issued w)) n)
              (set_cache c f) (clearScroll sid wp))
    as (_ & _ & Hc2).
  now rewrite He in Hc2.
Qed.

Lemma refreshCache_publishes_gathered_witness :
  exists f' w',
    refreshCache 3 sample_fetcher two_pages = Some (None, f', w')
    /\ map ServiceName (cache f') = ["cart"; "checkout"; "search"; "billing"]
    /\ exists n,
         stops_at (upstream two_pages) (length (issued two_pages)) n
         /\ length (issued w') = length (issued two_pages) + n + 2
         /\ cache f' = gathered (upstream two_pages) (length (issued two_pages)) n
         /\ forall c, exists f2 w2,
              refreshCache 3 (set_cache c sample_fetcher) two_pages
              = Some (None, f2, w2)
              /\ cache f2 = cache f'.
Proof.
  eexists _, _. split; [reflexivity|]. split; [reflexivity|].
  apply (refreshCache_publishes_gathered 3 sample_fetcher two_pages).
  reflexivity.
Defined.

(** * The scroll is cleared once per cycle *)

(** C5: every cycle that ends, with or without error, issued its page
    requests and then exactly one [clearScroll] request, the last request of
    the cycle.  The answer to that request decides nothing but a log line:
    with any other answer in its place the cycle returns the same error and
    leaves the same fetcher, and what [clearScroll] logs for the answer (a
    warning when the call or its status failed) ends the log of the
    cycle. *)
Theorem refreshCache_clears_scroll_once fuel f w err f' w' :
  refreshCache fuel f w = Some (err, f', w') ->
  (exists reqs sid,
     issued w' = issued w ++ reqs ++ [ClearScrollRequest [sid]]
     /\ Forall (fun r => is_clearScroll r = false) reqs
     /\ List.filter is_clearScroll (drop (length (issued w)) (issued w'))
        = [ClearScrollRequest [sid]])
  /\ (forall d, exists w2,
        refreshCache fuel f (override (length (issued w') - 1) d w)
        = Some (err, f', w2))
  /\ (exists before,
        logged w'
        = before ++ clear_log (upstream w (length (issued w') - 1))).
Proof.
  intros H. split_and!.
  - apply refreshCache_Some in H
      as (n & wp & reqs & sid & _ & _ & _ & Hiss & _ & Hall & -> & _).
    exists reqs, sid. rewrite clearScroll_issued, Hiss, <- app_assoc.
    split_and!; auto.
    rewrite drop_app_length, List.filter_app. simpl.
    replace (List.filter is_clearScroll reqs) with (@nil Request);
      [reflexivity|].
    clear -Hall. induction Hall as [|r reqs Hr _ IH]; [reflexivity|].
    simpl. now rewrite Hr.
  - intros d. eapply refreshCache_override. eassumption.
  - apply refreshCache_Some in H
      as (n & wp & reqs & sid & _ & _ & Hup & Hiss & _ & _ & -> & _).
    exists (logged wp).
    rewrite clearScroll_logged, clearScroll_issued, Hup, length_app. simpl.
    now replace (length (issued wp) + 1 - 1) with (length (issued wp)) by lia.
Qed.

Lemma refreshCache_clears_scroll_once_witness :
  exists err f' w',
    refreshCache 3 sample_fetcher connection_lost = Some (err, f', w')
    /\ err = Some (foreign "connection refused")
    /\ issued w'
       = [SearchRequest [ElasticsearchIndexName] 100 30000000000;
          ScrollRequest "c1" 30000000000;
          ClearScrollRequest ["c1"]]
    /\ logged w' = [(WarnLevel, log_clear_failed (foreign "connection refused"))]
    /\ (exists reqs sid,
          issued w' = issued connection_lost ++ reqs ++ [ClearScrollRequest [sid]]
          /\ Forall (fun r => is_clearScroll r = false) reqs
          /\ List.filter is_clearScroll
               (drop (length (issued connection_lost)) (issued w'))
             = [ClearScrollRequest [sid]]).
Proof.
  eexists _, _, _. split; [reflexivity|]. do 3 (split; [reflexivity|]).
  refine (proj1 (refreshCache_clears_scroll_once
                   3 sample_fetcher connection_lost _ _ _ _)).
  reflexivity.
Defined.

(** * What a failed cycle leaves untouched *)

(** C6: a cycle that returns an error leaves the cached snapshot and the
    initialized flag as they were; when the answer that failed the cycle is
    not a 401 or 403 response, the invalid flag (indeed the whole fetcher)
    is unchanged too. *)
Theorem refreshCache_error_frame fuel f w e f' w' :
  refreshCache fuel f w = Some (Some e, f', w') ->
  cache f' = cache f
  /\ cacheInitialized f' = cacheInitialized f
  /\ (permanent (last_page_answer w') = false ->
      invalidESCfg f' = invalidESCfg f /\ f' = f).
Proof.
  intros H.
  apply refreshCache_requests in H as (n & _ & _ & Hlen & Hup & He & ->).
  symmetry in He.
  destruct (after_cycle_flags
              (upstream w (length (issued w) + n))
              (gathered (upstream w) (length (issued w)) n) f w')
    as (Hinit & _ & Hc).
  rewrite He in Hinit, Hc. split_and!; auto.
  unfold last_page_answer. rewrite Hup, Hlen.
  replace (length (issued w) + n + 2 - 2) with (length (issued w) + n) by lia.
  unfold after_cycle. rewrite He. intros ->. auto.
Qed.

Lemma refreshCache_error_frame_witness :
  exists e f' w',
    refreshCache 3 primed_fetcher connection_lost = Some (Some e, f', w')
    /\ permanent (last_page_answer w') = false
    /\ cache f' = cache primed_fetcher
    /\ cacheInitialized f' = cacheInitialized primed_fetcher
    /\ (permanent (last_page_answer w') = false ->
        invalidESCfg f' = invalidESCfg primed_fetcher /\ f' = primed_fetcher).
Proof.
  eexists _, _, _. split; [reflexivity|]. split; [reflexivity|].
  refine (refreshCache_error_frame 3 primed_fetcher connection_lost _ _ _ _).
  reflexivity.
Defined.

(** * The readiness flags *)

(** C7: the two flags only go from false to true.  [singlePageRefresh]
    leaves the initialized flag alone and sets the invalid flag exactly when
    the answer is a 401 or 403 response; a cycle sets the invalid flag
    exactly when the answer that stopped it is such a response, and sets the
    initialized flag exactly when it returns no error (having stored its
    buffer); [Run] never clears either flag.  [clearScroll] and [Fetch]
    return no fetcher at all. *)
Theorem readiness_flags_monotone :
  (forall scrollID f w,
     let '(_, _, f', _) := singlePageRefresh scrollID f w in
     cacheInitialized f' = cacheInitialized f
     /\ invalidESCfg f'
        = invalidESCfg f || permanent (upstream w (length (issued w))))
  /\ (forall fuel f w err f' w',
        refreshCache fuel f w = Some (err, f', w') ->
        invalidESCfg f' = invalidESCfg f || permanent (last_page_answer w')
        /\ cacheInitialized f'
           = match err with
             | Some _ => cacheInitialized f
             | None => true
             end
        /\ (err = None -> exists n,
              cache f' = gathered (upstream w) (length (issued w)) n))
  /\ (forall ticks pages ctx f w r f' w',
        Run ticks pages ctx f w = Some (r, f', w') ->
        (invalidESCfg f = true -> invalidESCfg f' = true)
        /\ (cacheInitialized f = true -> cacheInitialized f' = true)).
Proof.
  split_and!.
  - intros scrollID f w.
    destruct (singlePageRefresh_unfold scrollID f w) as (w1 & -> & _).
    destruct (permanent (upstream w (length (issued w)))); simpl.
    + now rewrite orb_true_r.
    + now rewrite orb_false_r.
  - intros fuel f w err f' w' H.
    apply refreshCache_requests in H as (n & _ & _ & Hlen & Hup & -> & ->).
    destruct (after_cycle_flags
                (upstream w (length (issued w) + n))
                (gathered (upstream w) (length (issued w)) n) f w')
      as (Hinit & Hinv & Hc).
    unfold last_page_answer. rewrite Hup, Hlen.
    replace (length (issued w) + n + 2 - 2) with (length (issued w) + n) by lia.
    split_and!; auto.
    intros He. rewrite He in Hc. eauto.
  - intros ticks pages ctx f w r f' w' H.
    apply Run_Some in H as (_ & Hinv & Hinit & _). auto.
Qed.

Lemma readiness_flags_monotone_witness :
  exists r f' w',
    Run 1 2 done_at_first_tick primed_fetcher connection_lost
    = Some (r, f', w')
    /\ cacheInitialized f' = true.
Proof.
  eexists _, _, _. split; [reflexivity|].
  refine (proj2 (proj2 (proj2 readiness_flags_monotone)
                   1 2 done_at_first_tick primed_fetcher connection_lost
                   _ _ _ _) _);
    reflexivity.
Defined.

(** C8, as stated, fails: started on a new fetcher, [Run] over an empty
    index and then a 401 answer ends with both flags set. *)
Lemma initialized_and_invalid_reachable :
  exists f' w',
    Run 1 1 never_done sample_fetcher success_then_denied = Some (None, f', w')
    /\ cacheInitialized f' = true
    /\ invalidESCfg f' = true.
Proof.
  eexists _, _. split_and!; reflexivity.
Qed.

(** C8, amended: one cycle sets at most one of the two flags.  When both
    are set after a cycle, either the fetcher was already initialized and
    the cycle failed, or it was already invalid and the cycle succeeded; so
    no cycle takes a fetcher with both flags clear to one with both set. *)
Theorem refreshCache_sets_one_flag fuel f w err f' w' :
  refreshCache fuel f w = Some (err, f', w') ->
  cacheInitialized f' = true ->
  invalidESCfg f' = true ->
  (cacheInitialized f = true /\ err <> None)
  \/ (invalidESCfg f = true /\ err = None).
Proof.
  intros H Hinit Hinv.
  apply refreshCache_requests in H as (n & _ & _ & _ & _ & -> & ->).
  destruct (after_cycle_flags
              (upstream w (length (issued w) + n))
              (gathered (upstream w) (length (issued w)) n) f w')
    as (Hi & Hv & _).
  rewrite Hi in Hinit. rewrite Hv in Hinv. clear Hi Hv.
  destruct (page_error (upstream w (length (issued w) + n))) as [e|] eqn:He.
  - left. split; [assumption|discriminate].
  - right. split; [|reflexivity].
    destruct (permanent (upstream w (length (issued w) + n))) eqn:Hp.
    + apply permanent_page_error in Hp as (resp & _ & Hp). congruence.
    + now rewrite orb_false_r in Hinv.
Qed.

Lemma refreshCache_sets_one_flag_witness :
  exists err f' w',
    refreshCache 1 (store_cacheInitialized true sample_fetcher)
                 denied_then_unavailable
    = Some (err, f', w')
    /\ ((cacheInitialized (store_cacheInitialized true sample_fetcher) = true
         /\ err <> None)
        \/ (invalidESCfg (store_cacheInitialized true sample_fetcher) = true
            /\ err = None)).
Proof.
  eexists _, _, _. split; [reflexivity|].
  refine (refreshCache_sets_one_flag
            1 (store_cacheInitialized true sample_fetcher)
            denied_then_unavailable _ _ _ _ _ _);
    reflexivity.
Defined.

(** * Where the page loop stops *)

(** A cycle whose answers are [n] pages with hits and then a page without
    hits returns no error, stores the gathered buffer and sets the
    initialized flag. *)
Lemma pagination_free_of_hits n fuel f w :
  n < fuel ->
  (forall i, i < n -> more_pages (upstream w (length (issued w) + i)) = true) ->
  page_error (upstream w (length (issued w) + n)) = None ->
  Hits_Hits (Hits (page_result (upstream w (length (issued w) + n)))) = [] ->
  exists f' w',
    refreshCache fuel f w = Some (None, f', w')
    /\ cache f' = gathered (upstream w) (length (issued w)) n
    /\ cacheInitialized f' = true.
Proof.
  intros Hfuel Hmore Herr Hhits.
  assert (Hstop : stops_at (upstream w) (length (issued w)) n).
  { split; [assumption|]. unfold more_pages. now rewrite Herr, Hhits. }
  destruct (refreshCache_stops n fuel f w Hfuel Hstop)
    as (wp & reqs & sid & Hr & _).
  rewrite Herr in Hr.
  eexists _, _. split; [exact Hr|].
  unfold after_cycle. rewrite Herr. split; reflexivity.
Qed.


(** C9: when the first [n] answers of a cycle are pages with hits and the
    next one is a page without hits, the cycle (with fuel for [n + 1] pages)
    returns without error after exactly [n + 1] page requests followed by
    the [clearScroll] request, so no page is requested after the empty one,
    and the cache it stores is the buffer gathered from the [n] pages. *)
Theorem pagination_stops_at_first_empty_page n fuel f w :
  n < fuel ->
  (forall i, i < n -> more_pages (upstream w (length (issued w) + i)) = true) ->
  page_error (upstream w (length (issued w) + n)) = None ->
  Hits_Hits (Hits (page_result (upstream w (length (issued w) + n)))) = [] ->
  exists f' w' reqs sid,
    refreshCache fuel f w = Some (None, f', w')
    /\ issued w' = issued w ++ reqs ++ [ClearScrollRequest [sid]]
    /\ length reqs = S n
    /\ Forall (fun r => is_clearScroll r = false) reqs
    /\ cache f' = gathered (upstream w) (length (issued w)) n.
Proof.
  intros Hfuel Hmore Herr Hhits.
  assert (Hstop : stops_at (upstream w) (length (issued w)) n).
  { split; [assumption|]. unfold more_pages. now rewrite Herr, Hhits. }
  destruct (refreshCache_stops n fuel f w Hfuel Hstop)
    as (wp & reqs & sid & Hr & _ & Hiss & Hlen & Hall).
  rewrite Herr in Hr.
  eexists _, _, reqs, sid. split; [exact Hr|].
  split_and!; auto.
  - rewrite clearScroll_issued, Hiss, <- app_assoc. reflexivity.
  - unfold after_cycle. rewrite Herr. reflexivity.
Qed.

Lemma pagination_stops_at_first_empty_page_witness :
  exists f' w' reqs sid,
    refreshCache 3 sample_fetcher two_pages = Some (None, f', w')
    /\ issued w' = issued two_pages ++ reqs ++ [ClearScrollRequest [sid]]
    /\ length reqs = 3
    /\ Forall (fun r => is_clearScroll r = false) reqs
    /\ cache f' = gathered (upstream two_pages) (length (issued two_pages)) 2.
Proof.
  apply (pagination_stops_at_first_empty_page 2 3 sample_fetcher two_pages).
  - lia.
  - intros [|[|i]] Hi; [reflexivity|reflexivity|lia].
  - reflexivity.
  - reflexivity.
Defined.

(** C10: when the answer to the first page request of a cycle is a page
    without hits, the cycle returns no error, stores the empty snapshot and
    sets the initialized flag; from then on [Fetch] hands the query and the
    empty list to the matcher, and goes on doing so after any later cycle
    that fails. *)
Theorem empty_first_page_initializes fuel f w resp p :
  upstream w (length (issued w)) = DoOk resp ->
  (StatusCode resp < 400)%Z ->
  Decode (RespBody resp) = inl p ->
  Hits_Hits (Hits p) = [] ->
  exists f' w',
    refreshCache (S fuel) f w = Some (None, f', w')
    /\ cache f' = []
    /\ cacheInitialized f' = true
    /\ (forall (Query Result : Type) (zero_Result : Result)
               (matchAgentConfig : Query -> list AgentConfig -> Result)
               (query : Query),
          Fetch zero_Result matchAgentConfig f' query
          = (matchAgentConfig query [], None))
    /\ (forall fuel2 e f2 w2
               (Query Result : Type) (zero_Result : Result)
               (matchAgentConfig : Query -> list AgentConfig -> Result)
               (query : Query),
          refreshCache fuel2 f' w' = Some (Some e, f2, w2) ->
          Fetch zero_Result matchAgentConfig f2 query
          = (matchAgentConfig query [], None)).
Proof.
  intros Hd Hlt Hdec Hhits.
  assert (Herr : page_error (upstream w (length (issued w) + 0)) = None).
  { rewrite Nat.add_0_r, Hd. unfold page_error, StatusBadRequest.
    destruct (Z.leb_spec 400 (StatusCode resp)); [lia|]. now rewrite Hdec. }
  assert (Hres : page_result (upstream w (length (issued w) + 0)) = p).
  { rewrite Nat.add_0_r, Hd. unfold page_result, StatusBadRequest.
    destruct (Z.leb_spec 400 (StatusCode resp)); [lia|]. now rewrite Hdec. }
  destruct (pagination_free_of_hits 0 (S fuel) f w) as (f' & w' & Hr & Hc & Hi);
    [lia|intros i Hi; lia|assumption|now rewrite Hres|].
  exists f', w'. split_and!; auto.
  - intros Query Result zero_Result matchAgentConfig query.
    unfold Fetch. now rewrite Hi, Hc.
  - intros fuel2 e f2 w2 Query Result zero_Result matchAgentConfig query H2.
    apply refreshCache_requests in H2 as (m & _ & _ & _ & _ & He & ->).
    symmetry in He.
    destruct (after_cycle_flags
                (upstream w' (length (issued w') + m))
                (gathered (upstream w') (length (issued w')) m) f' w2)
      as (Hi2 & _ & Hc2).
    rewrite He in Hi2, Hc2.
    unfold Fetch. now rewrite Hi2, Hc2, Hi, Hc.
Qed.

Lemma empty_first_page_initializes_witness :
  exists f' w',
    refreshCache 1 sample_fetcher empty_corpus = Some (None, f', w')
    /\ cache f' = []
    /\ cacheInitialized f' = true
    /\ Fetch None sample_matcher f' "checkout"
       = (sample_matcher "checkout" [], None).
Proof.
  destruct (empty_first_page_initializes
              0 sample_fetcher empty_corpus _ _ eq_refl eq_refl eq_refl eq_refl)
    as (f' & w' & Hr & Hc & Hi & HF & _).
  exists f', w'. split_and!; auto.
Defined.

(** * What [Run] returns *)

(** What [refresh] returns for a cycle that failed. *)
Lemma refresh_failed pages f w e f1 w1 :
  refreshCache pages f w = Some (Some e, f1, w1) ->
  refresh pages f w
  = if invalidESCfg f1
    then Some (true, f1,
               log WarnLevel log_stopping
                   (log ErrorLevel (log_refresh_error e) w1))
    else Some (false, f1, log ErrorLevel (log_refresh_error e) w1).
Proof.
  intros H. unfold refresh. rewrite H. reflexivity.
Qed.

(** The invalid flag after a cycle that failed. *)
Lemma refreshCache_invalid fuel f w e f1 w1 :
  refreshCache fuel f w = Some (Some e, f1, w1) ->
  invalidESCfg f1 = invalidESCfg f || permanent (last_page_answer w1)
  /\ (permanent (last_page_answer w1) = false -> f1 = f).
Proof.
  intros H.
  apply refreshCache_requests in H as (n & _ & _ & Hlen & Hup & He & ->).
  symmetry in He.
  destruct (after_cycle_flags
              (upstream w (length (issued w) + n))
              (gathered (upstream w) (length (issued w)) n) f w1)
    as (_ & Hinv & _).
  unfold last_page_answer. rewrite Hup, Hlen.
  replace (length (issued w) + n + 2 - 2) with (length (issued w) + n) by lia.
  split; [assumption|].
  unfold after_cycle. rewrite He. now intros ->.
Qed.

(** C4, as stated, fails on a fetcher whose invalid flag is already set: a
    first [Run] on a new fetcher is stopped by a 401 answer and returns no
    error; a second [Run] on the same fetcher meets a 503 answer, which is
    not a permanent failure, and returns at once, again with no error. *)
Lemma Run_returns_on_transient_failure_once_invalid :
  exists f1 w1 f2 w2,
    Run 1 1 never_done sample_fetcher denied_then_unavailable
    = Some (None, f1, w1)
    /\ Run 1 1 never_done f1 w1 = Some (None, f2, w2)
    /\ last_page_answer w2 = status_page 503
    /\ permanent (last_page_answer w2) = false.
Proof.
  eexists _, _, _, _. split_and!; reflexivity.
Qed.

(** C4, amended.  A [select] that finds the context done makes [Run]
    return the error of the context, at entry and at every tick; when [Run]
    returns an error, it is that error and some [select] found the context
    done, all earlier ones having proceeded.  A cycle that fails with the
    invalid flag set afterwards makes [Run] return no error, at entry and
    at every tick, and whenever [Run] returns no error the flag is set.  When [Run] is entered
    with the flag set, every failed cycle does so, whatever its failure.
    When the flag is clear before a cycle, the cycle makes [Run] return
    only if the answer that stopped it is a 401 or 403 response; a cycle
    that fails otherwise leaves the fetcher as it was and [Run] goes on to
    its next [select] (at entry, given the positive [cacheDuration] the
    ticker needs). *)
Theorem Run_result ticks pages ctx f w :
  (ctx_select ctx 0 = case_Done ->
   Run ticks pages ctx f w = Some (Some (ctx_Err ctx), f, w))
  /\ (forall k f0 w0,
        ctx_select ctx k = case_Done ->
        tickerLoop (S ticks) pages ctx k f0 w0
        = Some (Some (ctx_Err ctx), f0, w0))
  /\ (forall r f' w',
        Run ticks pages ctx f w = Some (r, f', w') ->
        match r with
        | Some e =>
          e = ctx_Err ctx
          /\ exists j, ctx_select ctx j = case_Done
                       /\ forall i, i < j -> ctx_select ctx i = case_proceed
        | None =>
          invalidESCfg f' = true
          /\ (invalidESCfg f = false ->
              permanent (last_page_answer w') = true)
        end)
  /\ (forall e f1 w1,
        refreshCache pages f w = Some (Some e, f1, w1) ->
        invalidESCfg f1 = true ->
        ctx_select ctx 0 = case_proceed ->
        Run ticks pages ctx f w
        = Some (None, f1,
                log WarnLevel log_stopping
                    (log ErrorLevel (log_refresh_error e) w1)))
  /\ (forall k f0 w0 e f1 w1,
        refreshCache pages f0 w0 = Some (Some e, f1, w1) ->
        invalidESCfg f1 = true ->
        ctx_select ctx k = case_proceed ->
        tickerLoop (S ticks) pages ctx k f0 w0
        = Some (None, f1,
                log WarnLevel log_stopping
                    (log ErrorLevel (log_refresh_error e) w1)))
  /\ (forall e f1 w1,
        invalidESCfg f = true ->
        refreshCache pages f w = Some (Some e, f1, w1) ->
        ctx_select ctx 0 = case_proceed ->
        Run ticks pages ctx f w
        = Some (None, f1,
                log WarnLevel log_stopping
                    (log ErrorLevel (log_refresh_error e) w1)))
  /\ (forall e f1 w1,
        invalidESCfg f = false ->
        refreshCache pages f w = Some (Some e, f1, w1) ->
        permanent (last_page_answer w1) = false ->
        ctx_select ctx 0 = case_proceed ->
        (0 < cacheDuration f)%Z ->
        f1 = f
        /\ Run ticks pages ctx f w
           = tickerLoop ticks pages ctx 1 f
                        (log ErrorLevel (log_refresh_error e) w1))
  /\ (forall k f0 w0 e f1 w1,
        invalidESCfg f0 = false ->
        refreshCache pages f0 w0 = Some (Some e, f1, w1) ->
        permanent (last_page_answer w1) = false ->
        ctx_select ctx k = case_proceed ->
        f1 = f0
        /\ tickerLoop (S ticks) pages ctx k f0 w0
           = tickerLoop ticks pages ctx (S k) f0
                        (log ErrorLevel (log_refresh_error e) w1)).
Proof.
  split_and!.
  - intros Hsel. unfold Run. now rewrite Hsel.
  - intros k f0 w0 Hsel. simpl. now rewrite Hsel.
  - intros r f' w' H.
    apply Run_Some in H as (_ & _ & _ & Hr). assumption.
  - intros e f1 w1 Hc Hinv Hsel.
    unfold Run. rewrite Hsel. now rewrite (refresh_failed _ _ _ _ _ _ Hc), Hinv.
  - intros k f0 w0 e f1 w1 Hc Hinv Hsel.
    simpl. rewrite Hsel. now rewrite (refresh_failed _ _ _ _ _ _ Hc), Hinv.
  - intros e f1 w1 Hf Hc Hsel.
    assert (Hinv : invalidESCfg f1 = true).
    { destruct (refreshCache_invalid _ _ _ _ _ _ Hc) as [Hinv _].
      rewrite Hinv, Hf. reflexivity. }
    unfold Run. rewrite Hsel. now rewrite (refresh_failed _ _ _ _ _ _ Hc), Hinv.
  - intros e f1 w1 Hf Hc Hperm Hsel Hpos.
    destruct (refreshCache_invalid _ _ _ _ _ _ Hc) as [Hinv Hsame].
    specialize (Hsame Hperm). subst f1.
    split; [reflexivity|].
    unfold Run. rewrite Hsel, (refresh_failed _ _ _ _ _ _ Hc), Hf.
    unfold time_NewTicker.
    destruct (Z.ltb_spec 0 (cacheDuration f)); [reflexivity|lia].
  - intros k f0 w0 e f1 w1 Hf Hc Hperm Hsel.
    destruct (refreshCache_invalid _ _ _ _ _ _ Hc) as [Hinv Hsame].
    specialize (Hsame Hperm). subst f1.
    split; [reflexivity|].
    simpl. now rewrite Hsel, (refresh_failed _ _ _ _ _ _ Hc), Hf.
Qed.

Lemma Run_result_witness :
  exists f1 w1 f2 w2,
    refreshCache 1 sample_fetcher denied_then_unavailable
    = Some (Some (status_Errorf 401), f1, w1)
    /\ invalidESCfg f1 = true
    /\ refreshCache 1 f1 w1 = Some (Some (status_Errorf 503), f2, w2)
    /\ Run 1 1 never_done f1 w1
       = Some (None, f2,
               log WarnLevel log_stopping
                   (log ErrorLevel (log_refresh_error (status_Errorf 503)) w2))
    /\ (exists f' w',
          Run 1 2 done_at_first_tick sample_fetcher connection_lost
          = Some (Some (foreign "context canceled"), f', w')
          /\ foreign "context canceled" = ctx_Err done_at_first_tick
          /\ exists j, ctx_select done_at_first_tick j = case_Done
                       /\ forall i, i < j ->
                            ctx_select done_at_first_tick i = case_proceed).
Proof.
  eexists _, _, _, _.
  split; [reflexivity|]. split; [reflexivity|]. split; [reflexivity|].
  split.
  - refine (proj1 (proj2 (proj2 (proj2 (proj2 (proj2
              (Run_result 1 1 never_done _ _))))))
              (status_Errorf 503) _ _ _ _ _);
      reflexivity.
  - eexists _, _. split; [reflexivity|].
    refine (proj1 (proj2 (proj2
              (Run_result 1 2 done_at_first_tick sample_fetcher
                          connection_lost)))
              (Some (foreign "context canceled")) _ _ _).
    reflexivity.
Defined.

(** * The requests of a cycle *)

Lemma cursor_S scrollID up base i :
  cursor scrollID up base (S i)
  = cursor (ScrollID (page_result (up base))) up (S base) i.
Proof.
  destruct i as [|i]; simpl.
  - now rewrite Nat.add_0_r.
  - now replace (base + S i) with (S (base + i)) by lia.
Qed.

Lemma page_requests_S f scrollID up base n :
  page_requests f scrollID up base (S n)
  = pageRequest scrollID f
    :: page_requests f (ScrollID (page_result (up base))) up (S base) n.
Proof.
  unfold page_requests. simpl seq. rewrite <- seq_shift, map_cons, map_map.
  f_equal. apply map_ext. intros i. now rewrite cursor_S.
Qed.

Lemma pageRequest_not_clear scrollID f :
  is_clearScroll (pageRequest scrollID f) = false.
Proof. unfold pageRequest. destruct (String.eqb scrollID ""); reflexivity. Qed.

Lemma pageRequest_allowed scrollID f :
  fetcher_request f (pageRequest scrollID f).
Proof.
  unfold pageRequest.
  destruct (String.eqb_spec scrollID ""); simpl; auto.
Qed.

Lemma page_requests_allowed f scrollID up base n :
  Forall (fetcher_request f) (page_requests f scrollID up base n)
  /\ List.filter is_clearScroll (page_requests f scrollID up base n) = [].
Proof.
  unfold page_requests.
  induction (seq 0 n) as [|i l [IH1 IH2]]; simpl; [auto|].
  rewrite pageRequest_not_clear. split; [|assumption].
  constructor; [apply pageRequest_allowed|assumption].
Qed.

(** The requests of a finished page loop, one by one. *)
Lemma pageLoop_trace fuel :
  forall scrollID buffer f w exit f' w',
    pageLoop fuel scrollID buffer f w = Some (exit, f', w') ->
    exists n,
      stops_at (upstream w) (length (issued w)) n
      /\ issued w'
         = issued w
           ++ page_requests f scrollID (upstream w) (length (issued w)) (S n)
           ++ match exit with
              | loop_return _ =>
                [ClearScrollRequest
                   [cursor scrollID (upstream w) (length (issued w)) n]]
              | loop_break _ _ => []
              end
      /\ match exit with
         | loop_return e =>
           page_error (upstream w (length (issued w) + n)) = Some e
         | loop_break sid _ =>
           page_error (upstream w (length (issued w) + n)) = None
           /\ sid = cursor scrollID (upstream w) (length (issued w)) (S n)
         end.
Proof.
  induction fuel as [|fuel IH]; intros scrollID buffer f w exit f' w' H;
    [discriminate|].
  simpl in H.
  destruct (singlePageRefresh_unfold scrollID f w) as (w1 & Hs & Hup & Hiss & _).
  rewrite Hs in H. clear Hs.
  set (d := upstream w (length (issued w))) in *.
  destruct (page_error d) as [e|] eqn:He.
  - injection H as <- <- <-. exists 0.
    rewrite Nat.add_0_r. fold d. split_and!.
    + split; [intros i Hi; lia|].
      rewrite Nat.add_0_r. fold d. unfold more_pages. now rewrite He.
    + rewrite clearScroll_issued, Hiss, <- app_assoc. reflexivity.
    + assumption.
  - assert (Hp : permanent d = false).
    { destruct (permanent d) eqn:Hp; [|reflexivity].
      apply permanent_page_error in Hp as (resp & _ & Hp). congruence. }
    rewrite Hp in H.
    destruct (Nat.eqb (length (Hits_Hits (Hits (page_result d)))) 0) eqn:Hz.
    + injection H as <- <- <-. exists 0.
      rewrite Nat.add_0_r. fold d. split_and!.
      * split; [intros i Hi; lia|].
        rewrite Nat.add_0_r. fold d. unfold more_pages. now rewrite He, Hz.
      * rewrite Hiss. reflexivity.
      * assumption.
      * simpl. now rewrite Nat.add_0_r.
    + apply IH in H as (n & Hstop & Hiss' & Hm).
      assert (Hbase : length (issued w1) = S (length (issued w))).
      { rewrite Hiss, length_app. simpl. lia. }
      rewrite Hbase, Hup in *.
      assert (Hmore : more_pages d = true).
      { unfold more_pages. now rewrite He, Hz. }
      exists (S n).
      replace (length (issued w) + S n) with (S (length (issued w)) + n) by lia.
      split_and!.
      * now apply stops_at_S.
      * rewrite Hiss', Hiss, <- app_assoc, (page_requests_S _ scrollID).
        fold d. destruct exit; [|reflexivity].
        now rewrite (cursor_S scrollID).
      * destruct exit as [e|sid buf]; [assumption|].
        destruct Hm as [Hm ->]. split; [assumption|].
        now rewrite (cursor_S scrollID).
Qed.

(** The requests of a finished cycle: the search, the continuations with
    the scroll id each page returned, and the release of the scroll id in
    hand when the loop was left. *)
Lemma refreshCache_trace fuel f w err f' w' :
  refreshCache fuel f w = Some (err, f', w') ->
  exists n,
    stops_at (upstream w) (length (issued w)) n
    /\ err = page_error (upstream w (length (issued w) + n))
    /\ issued w'
       = issued w
         ++ page_requests f "" (upstream w) (length (issued w)) (S n)
         ++ [ClearScrollRequest
               [cursor "" (upstream w) (length (issued w))
                       (match err with Some _ => n | None => S n end)]].
Proof.
  unfold refreshCache. intros H.
  destruct (pageLoop fuel "" [] f w) as [[[exit f1] w1]|] eqn:Hloop;
    [|discriminate].
  apply pageLoop_trace in Hloop as (n & Hstop & Hiss & Hm).
  exists n. destruct exit as [e|sid buf].
  - injection H as <- <- <-. split_and!; [assumption|now symmetry|assumption].
  - destruct Hm as [Hm ->]. injection H as <- <- <-.
    split_and!; [assumption|now symmetry|].
    rewrite clearScroll_issued, Hiss, app_nil_r, <- app_assoc. reflexivity.
Qed.

(** * The requests of [Run] *)

Lemma after_cycle_params d buffer f w' :
  cacheDuration (after_cycle d buffer f w') = cacheDuration f
  /\ searchSize (after_cycle d buffer f w') = searchSize f.
Proof.
  unfold after_cycle.
  destruct (page_error d); [destruct (permanent d)|]; split; reflexivity.
Qed.

Lemma fetcher_request_params f f' r :
  cacheDuration f' = cacheDuration f ->
  searchSize f' = searchSize f ->
  fetcher_request f' r -> fetcher_request f r.
Proof.
  intros Hd Hs. destruct r; simpl; rewrite ?Hd, ?Hs; auto.
Qed.

Lemma count_clears_app l1 l2 :
  count_clears (l1 ++ l2) = count_clears l1 + count_clears l2.
Proof.
  unfold count_clears. now rewrite List.filter_app, length_app.
Qed.

Lemma refreshCache_delta fuel f w err f' w' :
  refreshCache fuel f w = Some (err, f', w') ->
  exists delta,
    issued w' = issued w ++ delta
    /\ Forall (fetcher_request f) delta
    /\ count_clears delta = 1
    /\ cacheDuration f' = cacheDuration f
    /\ searchSize f' = searchSize f.
Proof.
  intros H.
  destruct (refreshCache_trace _ _ _ _ _ _ H) as (n & _ & _ & Hiss).
  apply refreshCache_requests in H as (m & _ & _ & _ & _ & _ & ->).
  destruct (page_requests_allowed f "" (upstream w) (length (issued w)) (S n))
    as [Hall Hnone].
  destruct (after_cycle_params
              (upstream w (length (issued w) + m))
              (gathered (upstream w) (length (issued w)) m) f w') as [Hd Hs].
  eexists. split_and!; [exact Hiss| | |exact Hd|exact Hs].
  - apply Forall_app. split; [assumption|].
    constructor; [reflexivity|constructor].
  - rewrite count_clears_app. unfold count_clears at 1. now rewrite Hnone.
Qed.

Lemma refresh_delta pages f w stop f1 w1 :
  refresh pages f w = Some (stop, f1, w1) ->
  exists delta,
    issued w1 = issued w ++ delta
    /\ Forall (fetcher_request f) delta
    /\ count_clears delta = 1
    /\ cacheDuration f1 = cacheDuration f
    /\ searchSize f1 = searchSize f.
Proof.
  intros H.
  apply refresh_Some in H as (err & wc & H & Hiss & _).
  apply refreshCache_delta in H as (delta & Hd & Hrest).
  exists delta. rewrite Hiss. split; assumption.
Qed.

(** The requests of the ticker loop are those of its cycles, one cycle for
    each [select] that proceeded. *)
Lemma tickerLoop_delta ticks pages ctx :
  forall k f w r f' w',
    tickerLoop ticks pages ctx k f w = Some (r, f', w') ->
    exists c delta,
      issued w' = issued w ++ delta
      /\ Forall (fetcher_request f) delta
      /\ count_clears delta = c
      /\ (forall i, k <= i < k + c -> ctx_select ctx i = case_proceed)
      /\ cacheDuration f' = cacheDuration f
      /\ searchSize f' = searchSize f
      /\ match r with
         | Some _ => ctx_select ctx (k + c) = case_Done
         | None => 1 <= c
         end.
Proof.
  induction ticks as [|ticks IH]; intros k f w r f' w' H; [discriminate|].
  simpl in H.
  destruct (ctx_select ctx k) eqn:Hsel.
  - injection H as <- <- <-. exists 0, [].
    rewrite app_nil_r, Nat.add_0_r.
    split_and!; auto. intros i Hi. lia.
  - destruct (refresh pages f w) as [[[stop f1] w1]|] eqn:Hr; [|discriminate].
    apply refresh_delta in Hr as (delta & Hiss & Hall & Hc & Hd & Hs).
    destruct stop.
    + injection H as <- <- <-. exists 1, delta.
      split_and!; auto.
      intros i Hi. now replace i with k by lia.
    + apply IH in H as (c & delta' & Hiss' & Hall' & Hc' & Hsel' & Hd' & Hs' & Hr).
      exists (S c), (delta ++ delta').
      replace (k + S c) with (S k + c) by lia.
      split_and!.
      * now rewrite Hiss', Hiss, <- app_assoc.
      * apply Forall_app. split; [assumption|].
        eapply Forall_impl; [exact Hall'|].
        intros req. now apply fetcher_request_params.
      * rewrite count_clears_app, Hc, Hc'. reflexivity.
      * intros i Hi. destruct (Nat.eq_dec i k) as [->|Hne]; [assumption|].
        apply Hsel'. lia.
      * congruence.
      * congruence.
      * destruct r; [assumption|lia].
Qed.

Lemma Run_delta ticks pages ctx f w r f' w' :
  Run ticks pages ctx f w = Some (r, f', w') ->
  exists c delta,
    issued w' = issued w ++ delta
    /\ Forall (fetcher_request f) delta
    /\ count_clears delta = c
    /\ (forall i, i < c -> ctx_select ctx i = case_proceed)
    /\ cacheDuration f' = cacheDuration f
    /\ searchSize f' = searchSize f
    /\ match r with
       | Some _ => ctx_select ctx c = case_Done
       | None => 1 <= c
       end.
Proof.
  unfold Run. intros H.
  destruct (ctx_select ctx 0) eqn:Hsel.
  - injection H as <- <- <-. exists 0, [].
    rewrite app_nil_r. split_and!; auto. intros i Hi. lia.
  - destruct (refresh pages f w) as [[[stop f1] w1]|] eqn:Hr; [|discriminate].
    apply refresh_delta in Hr as (delta & Hiss & Hall & Hc & Hd & Hs).
    destruct stop.
    + injection H as <- <- <-. exists 1, delta.
      split_and!; auto.
      intros i Hi. now replace i with 0 by lia.
    + destruct (time_NewTicker (cacheDuration f1)); [|discriminate].
      apply tickerLoop_delta in H
        as (c & delta' & Hiss' & Hall' & Hc' & Hsel' & Hd' & Hs' & Hr).
      exists (S c), (delta ++ delta').
      split_and!.
      * now rewrite Hiss', Hiss, <- app_assoc.
      * apply Forall_app. split; [assumption|].
        eapply Forall_impl; [exact Hall'|].
        intros req. now apply fetcher_request_params.
      * rewrite count_clears_app, Hc, Hc'. reflexivity.
      * intros i Hi. destruct (Nat.eq_dec i 0) as [->|Hne]; [assumption|].
        apply Hsel'. lia.
      * congruence.
      * congruence.
      * destruct r; [assumption|lia].
Qed.

(** * Further properties of a cycle *)

(** X1: the requests of a finished cycle, in order.  The first is the
    search of the agent configuration index with the page size and scroll
    duration of the fetcher; each later page request carries the scroll id
    returned by the page before it; the last request releases the scroll id
    in hand when the loop was left: the one sent with the failed request
    when the cycle failed, the one returned by the empty page when it
    succeeded. *)
Theorem refreshCache_request_trace fuel f w err f' w' :
  refreshCache fuel f w = Some (err, f', w') ->
  exists n,
    stops_at (upstream w) (length (issued w)) n
    /\ issued w'
       = issued w
         ++ page_requests f "" (upstream w) (length (issued w)) (S n)
         ++ [ClearScrollRequest
               [cursor "" (upstream w) (length (issued w))
                       (match err with Some _ => n | None => S n end)]]
    /\ (exists later,
          page_requests f "" (upstream w) (length (issued w)) (S n)
          = SearchRequest [ElasticsearchIndexName]
                          (searchSize f) (cacheDuration f) :: later).
Proof.
  intros H. apply refreshCache_trace in H as (n & Hstop & _ & Hiss).
  exists n. split_and!; [assumption..|].
  rewrite page_requests_S. eexists. reflexivity.
Qed.

Lemma refreshCache_request_trace_witness :
  exists f' w',
    refreshCache 3 sample_fetcher two_pages = Some (None, f', w')
    /\ issued w'
       = [SearchRequest [ElasticsearchIndexName] 100 30000000000;
          ScrollRequest "c1" 30000000000;
          ScrollRequest "c2" 30000000000;
          ClearScrollRequest ["c3"]]
    /\ exists n,
         stops_at (upstream two_pages) (length (issued two_pages)) n
         /\ issued w'
            = issued two_pages
              ++ page_requests sample_fetcher "" (upstream two_pages)
                               (length (issued two_pages)) (S n)
              ++ [ClearScrollRequest
                    [cursor "" (upstream two_pages) (length (issued two_pages))
                            (S n)]]
         /\ (exists later,
               page_requests sample_fetcher "" (upstream two_pages)
                             (length (issued two_pages)) (S n)
               = SearchRequest [ElasticsearchIndexName]
                               (searchSize sample_fetcher)
                               (cacheDuration sample_fetcher) :: later).
Proof.
  eexists _, _. split; [reflexivity|]. split; [reflexivity|].
  refine (refreshCache_request_trace 3 sample_fetcher two_pages None _ _ _).
  reflexivity.
Defined.

(** X2: when the first page request of a cycle fails, the cycle returns
    that very error after two requests: the search, and a [clearScroll]
    request for the empty scroll id. *)
Theorem first_page_failure_clears_empty_scroll fuel f w e :
  page_error (upstream w (length (issued w))) = Some e ->
  exists f' w',
    refreshCache (S fuel) f w = Some (Some e, f', w')
    /\ issued w'
       = issued w
         ++ [SearchRequest [ElasticsearchIndexName]
                           (searchSize f) (cacheDuration f);
             ClearScrollRequest [""]].
Proof.
  intros He.
  assert (Hstop : stops_at (upstream w) (length (issued w)) 0).
  { split; [intros i Hi; lia|].
    rewrite Nat.add_0_r. unfold more_pages. now rewrite He. }
  destruct (refreshCache_total 0 (S fuel) f w ltac:(lia) Hstop)
    as ([[err f'] w'] & H).
  destruct (refreshCache_trace _ _ _ _ _ _ H) as (n & Hstop' & -> & Hiss).
  assert (n = 0) as -> by (eapply stops_at_unique; eassumption).
  rewrite Nat.add_0_r, He in *.
  exists f', w'. split; [assumption|]. exact Hiss.
Qed.

Lemma first_page_failure_clears_empty_scroll_witness :
  exists f' w',
    refreshCache 1 sample_fetcher denied_then_unavailable
    = Some (Some (status_Errorf 401), f', w')
    /\ issued w'
       = issued denied_then_unavailable
         ++ [SearchRequest [ElasticsearchIndexName]
                           (searchSize sample_fetcher)
                           (cacheDuration sample_fetcher);
             ClearScrollRequest [""]].
Proof.
  apply (first_page_failure_clears_empty_scroll
           0 sample_fetcher denied_then_unavailable).
  reflexivity.
Defined.

(** X3: a page with hits that comes without a scroll id does not continue
    a scroll: the next request of the cycle is the search again. *)
Theorem page_without_scroll_id_restarts_search fuel f w err f' w' :
  refreshCache fuel f w = Some (err, f', w') ->
  more_pages (upstream w (length (issued w))) = true ->
  ScrollID (page_result (upstream w (length (issued w)))) = "" ->
  exists later,
    issued w'
    = issued w
      ++ [SearchRequest [ElasticsearchIndexName] (searchSize f) (cacheDuration f);
          SearchRequest [ElasticsearchIndexName] (searchSize f) (cacheDuration f)]
      ++ later.
Proof.
  intros H Hmore Hid.
  apply refreshCache_trace in H as (n & Hstop & _ & Hiss).
  destruct n as [|n].
  - destruct Hstop as [_ Hstop]. rewrite Nat.add_0_r in Hstop. congruence.
  - rewrite !page_requests_S, Hid in Hiss.
    eexists. rewrite Hiss. reflexivity.
Qed.

Lemma page_without_scroll_id_restarts_search_witness :
  exists err f' w',
    refreshCache 2 sample_fetcher no_cursor = Some (err, f', w')
    /\ map ServiceName (cache f') = ["cart"]
    /\ exists later,
         issued w'
         = issued no_cursor
           ++ [SearchRequest [ElasticsearchIndexName]
                             (searchSize sample_fetcher)
                             (cacheDuration sample_fetcher);
               SearchRequest [ElasticsearchIndexName]
                             (searchSize sample_fetcher)
                             (cacheDuration sample_fetcher)]
           ++ later.
Proof.
  eexists _, _, _. split; [reflexivity|]. split; [reflexivity|].
  refine (page_without_scroll_id_restarts_search
            2 sample_fetcher no_cursor _ _ _ _ _ _);
    reflexivity.
Defined.

(** * Further properties of [Run] and [Fetch] *)

(** X4: whatever [Run] does before it returns, it leaves the scroll
    duration and the page size of the fetcher as they were, and every
    request it issued is a search of the agent configuration index with
    that page size and duration, the continuation of a scroll with a
    non-empty scroll id and that duration, or the release of one scroll. *)
Theorem Run_requests_allowed ticks pages ctx f w r f' w' :
  Run ticks pages ctx f w = Some (r, f', w') ->
  cacheDuration f' = cacheDuration f
  /\ searchSize f' = searchSize f
  /\ exists delta,
       issued w' = issued w ++ delta
       /\ Forall (fetcher_request f) delta.
Proof.
  intros H.
  apply Run_delta in H as (c & delta & Hiss & Hall & _ & _ & Hd & Hs & _).
  split_and!; [assumption..|]. exists delta. split; assumption.
Qed.

Lemma Run_requests_allowed_witness :
  exists f' w',
    Run 1 1 never_done sample_fetcher success_then_denied
    = Some (None, f', w')
    /\ searchSize f' = 100%Z
    /\ exists delta,
         issued w' = issued success_then_denied ++ delta
         /\ Forall (fetcher_request sample_fetcher) delta.
Proof.
  eexists _, _. split; [reflexivity|].
  refine (proj2 (Run_requests_allowed 1 1 never_done sample_fetcher
                   success_then_denied None _ _ _)).
  reflexivity.
Defined.

(** X5: [Run] runs one cycle for each [select] that proceeds, one after
    the other.  When it returns, the number [c] of [clearScroll] requests it
    issued (one per cycle) is the number of selects that proceeded: the
    selects before number [c] all proceeded; when [Run] returns an error,
    select number [c] found the context done; when it returns none, at
    least one cycle ran. *)
Theorem Run_one_cycle_per_select ticks pages ctx f w r f' w' :
  Run ticks pages ctx f w = Some (r, f', w') ->
  exists c,
    count_clears (drop (length (issued w)) (issued w')) = c
    /\ (forall i, i < c -> ctx_select ctx i = case_proceed)
    /\ match r with
       | Some _ => ctx_select ctx c = case_Done
       | None => 1 <= c
       end.
Proof.
  intros H.
  apply Run_delta in H as (c & delta & Hiss & _ & Hc & Hsel & _ & _ & Hr).
  exists c. rewrite Hiss, drop_app_length. split_and!; assumption.
Qed.

Lemma Run_one_cycle_per_select_witness :
  exists f' w',
    Run 1 2 done_at_first_tick sample_fetcher connection_lost
    = Some (Some (foreign "context canceled"), f', w')
    /\ count_clears (drop (length (issued connection_lost)) (issued w')) = 1
    /\ exists c,
         count_clears (drop (length (issued connection_lost)) (issued w')) = c
         /\ (forall i, i < c -> ctx_select done_at_first_tick i = case_proceed)
         /\ ctx_select done_at_first_tick c = case_Done.
Proof.
  eexists _, _. split; [reflexivity|]. split; [reflexivity|].
  refine (Run_one_cycle_per_select 1 2 done_at_first_tick sample_fetcher
            connection_lost (Some (foreign "context canceled")) _ _ _).
  reflexivity.
Defined.

(** X6: a cycle that fails does not change what [Fetch] answers from an
    initialized fetcher: the same query gets the same result before and
    after.  On a fetcher that is not initialized, [Fetch] still fails after
    the cycle. *)
Theorem failed_cycle_keeps_Fetch {Query Result : Type} (zero_Result : Result)
    (matchAgentConfig : Query -> list AgentConfig -> Result)
    fuel f w e f' w' (query : Query) :
  refreshCache fuel f w = Some (Some e, f', w') ->
  (cacheInitialized f = true ->
   Fetch zero_Result matchAgentConfig f' query
   = Fetch zero_Result matchAgentConfig f query)
  /\ (cacheInitialized f = false ->
      exists err,
        Fetch zero_Result matchAgentConfig f' query = (zero_Result, Some err)).
Proof.
  intros H.
  apply refreshCache_requests in H as (n & _ & _ & _ & _ & He & ->).
  symmetry in He.
  destruct (after_cycle_flags
              (upstream w (length (issued w) + n))
              (gathered (upstream w) (length (issued w)) n) f w')
    as (Hinit & _ & Hc).
  rewrite He in Hinit, Hc. unfold Fetch. rewrite Hinit, Hc.
  split; intros ->; [reflexivity|].
  destruct (invalidESCfg (after_cycle _ _ _ _)); eauto.
Qed.

Lemma failed_cycle_keeps_Fetch_witness :
  exists e f' w',
    refreshCache 3 primed_fetcher connection_lost = Some (Some e, f', w')
    /\ Fetch None sample_matcher f' "cart"
       = Fetch None sample_matcher primed_fetcher "cart".
Proof.
  eexists _, _, _. split; [reflexivity|].
  refine (proj1 (failed_cycle_keeps_Fetch None sample_matcher
                   3 primed_fetcher connection_lost _ _ _ "cart" _) _);
    reflexivity.
Defined.

(** X7: once [Run] has returned without error, [Fetch] never reports that
    the infrastructure is not ready: it serves from the cache or fails with
    the invalid-configuration error. *)
Theorem Fetch_after_Run_stopped {Query Result : Type} (zero_Result : Result)
    (matchAgentConfig : Query -> list AgentConfig -> Result)
    ticks pages ctx f w f' w' (query : Query) :
  Run ticks pages ctx f w = Some (None, f', w') ->
  Fetch zero_Result matchAgentConfig f' query
  = (matchAgentConfig query (cache f'), None)
  \/ Fetch zero_Result matchAgentConfig f' query
     = (zero_Result, Some (errors_New ErrNoValidElasticsearchConfig)).
Proof.
  intros H. apply Run_Some in H as (_ & _ & _ & Hinv & _).
  unfold Fetch. rewrite Hinv.
  destruct (cacheInitialized f'); auto.
Qed.

Lemma Fetch_after_Run_stopped_witness :
  exists f' w',
    Run 1 1 never_done sample_fetcher denied_then_unavailable
    = Some (None, f', w')
    /\ (Fetch None sample_matcher f' "cart"
        = (sample_matcher "cart" (cache f'), None)
        \/ Fetch None sample_matcher f' "cart"
           = (None, Some (errors_New ErrNoValidElasticsearchConfig))).
Proof.
  eexists _, _. split; [reflexivity|].
  refine (Fetch_after_Run_stopped None sample_matcher 1 1 never_done
            sample_fetcher denied_then_unavailable _ _ "cart" _).
  reflexivity.
Defined.

(** X8: a cycle whose [n] first answers are pages with hits and whose next
    answer is a 401 or 403 response makes [Run] return without error, at
    entry or at any tick alike: [refresh] asks to stop, the invalid flag is
    set, the cache and the initialized flag are as before, and nothing is
    requested after the [clearScroll] of that cycle. *)
Theorem denied_answer_stops_Run n ticks pages ctx f w :
  n < pages ->
  (forall i, i < n -> more_pages (upstream w (length (issued w) + i)) = true) ->
  permanent (upstream w (length (issued w) + n)) = true ->
  exists f' w',
    refresh pages f w = Some (true, f', w')
    /\ invalidESCfg f' = true
    /\ cache f' = cache f
    /\ cacheInitialized f' = cacheInitialized f
    /\ length (issued w') = length (issued w) + n + 2
    /\ (ctx_select ctx 0 = case_proceed ->
        Run ticks pages ctx f w = Some (None, f', w'))
    /\ (forall k, ctx_select ctx k = case_proceed ->
                  tickerLoop (S ticks) pages ctx k f w = Some (None, f', w')).
Proof.
  intros Hfuel Hmore Hperm.
  destruct (permanent_page_error _ Hperm) as (resp & _ & He).
  assert (Hstop : stops_at (upstream w) (length (issued w)) n).
  { split; [assumption|]. unfold more_pages. now rewrite He. }
  destruct (refreshCache_stops n pages f w Hfuel Hstop)
    as (wp & reqs & sid & Hr & _ & Hiss & Hlen & _).
  unfold after_cycle in Hr. rewrite He, Hperm in Hr.
  assert (Hrefresh :
            refresh pages f w
            = Some (true, store_invalidESCfg true f,
                    log WarnLevel log_stopping
                        (log ErrorLevel
                             (log_refresh_error (status_Errorf (StatusCode resp)))
                             (clearScroll sid wp)))).
  { unfold refresh. rewrite Hr. reflexivity. }
  eexists _, _. split; [exact Hrefresh|].
  split_and!; try reflexivity.
  - simpl. rewrite clearScroll_issued, Hiss, !length_app, Hlen. simpl. lia.
  - intros Hsel. unfold Run. now rewrite Hsel, Hrefresh.
  - intros k Hsel. simpl. now rewrite Hsel, Hrefresh.
Qed.

Lemma denied_answer_stops_Run_witness :
  exists f' w',
    refresh 1 sample_fetcher denied_then_unavailable = Some (true, f', w')
    /\ invalidESCfg f' = true
    /\ cache f' = cache sample_fetcher
    /\ cacheInitialized f' = cacheInitialized sample_fetcher
    /\ length (issued w') = length (issued denied_then_unavailable) + 0 + 2
    /\ (ctx_select never_done 0 = case_proceed ->
        Run 5 1 never_done sample_fetcher denied_then_unavailable
        = Some (None, f', w'))
    /\ (forall k, ctx_select never_done k = case_proceed ->
                  tickerLoop 6 1 never_done k sample_fetcher
                             denied_then_unavailable
                  = Some (None, f', w')).
Proof.
  apply (denied_answer_stops_Run 0 5 1 never_done sample_fetcher
           denied_then_unavailable).
  - lia.
  - intros i Hi. lia.
  - reflexivity.
Defined.

(** X9: on a fetcher whose invalid flag is clear, a cycle that fails on
    anything but a 401 or 403 response is only logged: [refresh] does not
    ask to stop, the fetcher is exactly as before, and [Run] goes on to its
    next [select]: at a tick always, at entry when [cacheDuration] is
    positive, as the ticker made there needs. *)
Theorem transient_failure_is_retried n pages f w e :
  n < pages ->
  (forall i, i < n -> more_pages (upstream w (length (issued w) + i)) = true) ->
  page_error (upstream w (length (issued w) + n)) = Some e ->
  permanent (upstream w (length (issued w) + n)) = false ->
  invalidESCfg f = false ->
  exists w1,
    refresh pages f w = Some (false, f, w1)
    /\ upstream w1 = upstream w
    /\ length (issued w1) = length (issued w) + n + 2
    /\ (exists before,
          logged w1 = before ++ [(ErrorLevel, log_refresh_error e)])
    /\ (forall ticks ctx, ctx_select ctx 0 = case_proceed ->
          (0 < cacheDuration f)%Z ->
          Run ticks pages ctx f w = tickerLoop ticks pages ctx 1 f w1)
    /\ (forall ticks ctx k, ctx_select ctx k = case_proceed ->
          tickerLoop (S ticks) pages ctx k f w
          = tickerLoop ticks pages ctx (S k) f w1).
Proof.
  intros Hfuel Hmore He Hperm Hf.
  assert (Hstop : stops_at (upstream w) (length (issued w)) n).
  { split; [assumption|]. unfold more_pages. now rewrite He. }
  destruct (refreshCache_stops n pages f w Hfuel Hstop)
    as (wp & reqs & sid & Hr & Hup & Hiss & Hlen & _).
  unfold after_cycle in Hr. rewrite He, Hperm in Hr.
  assert (Hrefresh :
            refresh pages f w
            = Some (false, f,
                    log ErrorLevel (log_refresh_error e) (clearScroll sid wp))).
  { unfold refresh. rewrite Hr, Hf. reflexivity. }
  eexists. split; [exact Hrefresh|].
  split_and!.
  - simpl. now rewrite clearScroll_upstream.
  - simpl. rewrite clearScroll_issued, Hiss, !length_app, Hlen. simpl. lia.
  - eexists. reflexivity.
  - intros ticks ctx Hsel Hpos. unfold Run. rewrite Hsel, Hrefresh.
    unfold time_NewTicker.
    destruct (Z.ltb_spec 0 (cacheDuration f)); [reflexivity|lia].
  - intros ticks ctx k Hsel. simpl. now rewrite Hsel, Hrefresh.
Qed.

Lemma transient_failure_is_retried_witness :
  exists w1,
    refresh 2 sample_fetcher connection_lost = Some (false, sample_fetcher, w1)
    /\ length (issued w1) = length (issued connection_lost) + 1 + 2
    /\ Run 1 2 done_at_first_tick sample_fetcher connection_lost
       = tickerLoop 1 2 done_at_first_tick 1 sample_fetcher w1
    /\ tickerLoop 1 2 never_done 0 sample_fetcher connection_lost
       = tickerLoop 0 2 never_done 1 sample_fetcher w1.
Proof.
  assert (Hmore : forall i, i < 1 ->
            more_pages (upstream connection_lost
                                 (length (issued connection_lost) + i)) = true).
  { intros [|i] Hi; [reflexivity|lia]. }
  destruct (transient_failure_is_retried
              1 2 sample_fetcher connection_lost (foreign "connection refused")
              ltac:(lia) Hmore eq_refl eq_refl eq_refl)
    as (w1 & Hr & _ & Hlen & _ & HRun & Hloop).
  exists w1. split_and!; [exact Hr|exact Hlen| |].
  - apply HRun; reflexivity.
  - apply Hloop. reflexivity.
Defined.

(** X10: after a cycle that returns no error, whatever the flags and the
    cache were before it, [Fetch] hands the matcher the query and exactly
    the records that cycle gathered, and returns its result with no
    error. *)
Theorem Fetch_after_successful_cycle {Query Result : Type}
    (zero_Result : Result)
    (matchAgentConfig : Query -> list AgentConfig -> Result)
    fuel f w f' w' :
  refreshCache fuel f w = Some (None, f', w') ->
  exists n,
    stops_at (upstream w) (length (issued w)) n
    /\ forall query : Query,
         Fetch zero_Result matchAgentConfig f' query
         = (matchAgentConfig query
              (gathered (upstream w) (length (issued w)) n), None).
Proof.
  intros H.
  apply refreshCache_requests in H as (n & _ & Hstop & _ & _ & He & ->).
  symmetry in He.
  destruct (after_cycle_flags
              (upstream w (length (issued w) + n))
              (gathered (upstream w) (length (issued w)) n) f w')
    as (Hinit & _ & Hc).
  rewrite He in Hinit, Hc.
  exists n. split; [assumption|].
  intros query. unfold Fetch. now rewrite Hinit, Hc.
Qed.

Lemma Fetch_after_successful_cycle_witness :
  exists f' w',
    refreshCache 3 (store_invalidESCfg true sample_fetcher) two_pages
    = Some (None, f', w')
    /\ Fetch None sample_matcher f' "search"
       = (Some (toAgentConfig (sample_hit "search")), None)
    /\ exists n,
         stops_at (upstream two_pages) (length (issued two_pages)) n
         /\ forall query : string,
              Fetch None sample_matcher f' query
              = (sample_matcher query
                   (gathered (upstream two_pages)
                             (length (issued two_pages)) n), None).
Proof.
  eexists _, _. split; [reflexivity|]. split; [reflexivity|].
  refine (Fetch_after_successful_cycle None sample_matcher 3
            (store_invalidESCfg true sample_fetcher) two_pages _ _ _).
  reflexivity.
Defined.
